(** * A shallow embedding of the copy-on-write container runtime
      (src/w2d2/w2d2_commit_solution.py)

    The Python program drives three external collaborators: the [btrfs]
    tool, a [bash] interpreter running under [errexit], and the process that
    is isolated inside a container root.  The Python functions are embedded
    as Rocq functions over an explicit machine state; the collaborators are
    given an executable environment model (sections "Storage engine" and
    "Shell scripts").

    Environment assumptions of the model:
    - the storage root is a mounted btrfs filesystem whose top level holds
      only the subvolumes created through this program (no nested
      subvolumes, no other files);
    - strings interpolated into a script reach the tool literally (they hold
      no character that bash interprets inside double quotes);
    - one caller at a time: nothing else mutates the storage root while an
      operation runs;
    - the isolated command only writes below its own container root.

    Randomness is a list of raw draws handed to [init] and [run]; each
    attempt at an ID uses one.  The recursion of [init] and [run] on a
    collision has no bound in the source: here it ends with [None] when the
    list is used up. *)

From Stdlib Require Import ZArith String Ascii List Bool Lia.
From stdpp Require Import base gmap strings list fin_maps pretty.

Local Open Scope string_scope.
Local Open Scope Z_scope.

(** ** Strings as Python uses them *)

(** The newline character written by [echo]. *)
Definition nl : string := String "010"%char EmptyString.

(** Python's [needle in hay] on [str]: substring containment. *)
Fixpoint str_in (needle hay : string) : bool :=
  String.prefix needle hay
  || match hay with
     | EmptyString => false
     | String _ hay' => str_in needle hay'
     end.

Arguments str_in : simpl never.

(** [str.isspace] on the ASCII range. *)
Definition py_isspace (c : ascii) : bool :=
  let n := nat_of_ascii c in
  (((9 <=? n) && (n <=? 13)) || ((28 <=? n) && (n <=? 32)))%nat.

Fixpoint lstrip (s : string) : string :=
  match s with
  | EmptyString => EmptyString
  | String c s' => if py_isspace c then lstrip s' else s
  end.

Fixpoint rstrip (s : string) : string :=
  match s with
  | EmptyString => EmptyString
  | String c s' =>
      match rstrip s' with
      | EmptyString => if py_isspace c then EmptyString else String c EmptyString
      | kept => String c kept
      end
  end.

(** Python's [str.strip()]. *)
Definition strip (s : string) : string := lstrip (rstrip s).

(** Python's [' '.join(xs)]. *)
Fixpoint join_space (xs : list string) : string :=
  match xs with
  | [] => ""
  | [x] => x
  | x :: rest => x +:+ " " +:+ join_space rest
  end.

(** [random.randint(a, b)]: a draw in the closed range [a..b], computed
    from one item [r] of raw entropy. *)
Definition randint (a b r : Z) : Z := a + r mod (b - a + 1).

(** ** Machine state *)

(** A file-system entry below a directory, keyed by its relative path. *)
Inductive entry :=
  | EFile (content : string)
  | EDir.

Global Instance entry_eq_dec : EqDecision entry.
Proof. solve_decision. Defined.

(** A btrfs subvolume: the two numbers shown by [btrfs subvolume list] and
    its file tree. *)
Record volume := Volume {
  vol_id : N;
  vol_gen : N;
  vol_tree : gmap string entry
}.

(** A path of the host outside the storage root. *)
Inductive hnode :=
  | HFile (content : string)
  | HDir (tree : gmap string entry).

Record State := MkState {
  st_volumes : gmap string volume;   (* subvolumes under the storage root *)
  st_host : gmap string hnode;       (* the rest of the host file system *)
  st_next_id : N;                    (* next subvolume number *)
  st_gen : N                         (* filesystem generation *)
}.

Definition set_volumes (f : gmap string volume → gmap string volume) (s : State) : State :=
  MkState (f (st_volumes s)) (st_host s) (st_next_id s) (st_gen s).

Definition bump (s : State) : State :=
  MkState (st_volumes s) (st_host s) (N.succ (st_next_id s)) (N.succ (st_gen s)).

(** ** Storage engine: the btrfs tool *)

(** What ["{btrfs_path}/{name}"] denotes. *)
Inductive target :=
  | TVolume (v : volume)
  | TTopLevel
  | TMissing.

(** A name is looked up among the subvolumes; the empty name leaves the
    path of the storage root itself, the top-level subvolume. *)
Definition resolve (name : string) (s : State) : target :=
  match st_volumes s !! name with
  | Some v => TVolume v
  | None => if decide (name = "") then TTopLevel else TMissing
  end.

(** The tree seen at the top level: one directory per subvolume.  Inside a
    snapshot nested subvolumes show up as empty directories. *)
Definition toplevel_tree (s : State) : gmap string entry :=
  (λ _, EDir) <$> st_volumes s.

Definition fresh_volume (t : gmap string entry) (s : State) : volume :=
  Volume (st_next_id s) (N.succ (st_gen s)) t.

(** [btrfs subvolume create "{btrfs_path}/{name}"]. *)
Definition btrfs_subvolume_create (name : string) (s : State) : Z * State :=
  match resolve name s with
  | TMissing => (0, bump (set_volumes (insert name (fresh_volume ∅ s)) s))
  | _ => (1, s)
  end.

(** [btrfs subvolume delete "{btrfs_path}/{name}"].  The top level cannot
    be deleted. *)
Definition btrfs_subvolume_delete (name : string) (s : State) : Z * State :=
  match resolve name s with
  | TVolume _ => (0, set_volumes (delete name) s)
  | _ => (1, s)
  end.

(** [btrfs subvolume snapshot "{btrfs_path}/{src}" "{btrfs_path}/{dst}"].
    The program only ever names a destination it has just found free or
    just deleted; an occupied destination is reported as a failure. *)
Definition btrfs_subvolume_snapshot (src dst : string) (s : State) : Z * State :=
  let take (t : gmap string entry) :=
    match resolve dst s with
    | TMissing => (0, bump (set_volumes (insert dst (fresh_volume t s)) s))
    | _ => (1, s)
    end in
  match resolve src s with
  | TVolume v => take (vol_tree v)
  | TTopLevel => take (toplevel_tree s)
  | TMissing => (1, s)
  end.

(** The tree a snapshot of ["{btrfs_path}/{src}"] starts from. *)
Definition source_tree (src : string) (s : State) : option (gmap string entry) :=
  match resolve src s with
  | TVolume v => Some (vol_tree v)
  | TTopLevel => Some (toplevel_tree s)
  | TMissing => None
  end.

(** One line of [btrfs subvolume list]. *)
Definition list_line (name : string) (v : volume) : string :=
  "ID " +:+ pretty (vol_id v) +:+ " gen " +:+ pretty (vol_gen v)
  +:+ " top level 5 path " +:+ name +:+ nl.

Fixpoint list_lines (kvs : list (string * volume)) : string :=
  match kvs with
  | [] => ""
  | (name, v) :: rest => list_line name v +:+ list_lines rest
  end.

(** [btrfs subvolume list {btrfs_path}]: return code and standard output. *)
Definition btrfs_subvolume_list (s : State) : Z * string :=
  (0, list_lines (map_to_list (st_volumes s))).

(** ** Shell scripts *)

(** The simple commands that occur in the program's scripts.  [name]
    arguments are subvolume names under the storage root. *)
Inductive simple :=
  | BtrfsCreate (name : string)
      (* btrfs subvolume create "{btrfs_path}/{name}" > /dev/null *)
  | BtrfsDelete (name : string)
      (* btrfs subvolume delete "{btrfs_path}/{name}" > /dev/null *)
  | BtrfsSnapshot (src dst : string)
      (* btrfs subvolume snapshot "{btrfs_path}/{src}" "{btrfs_path}/{dst}" > /dev/null *)
  | CpReflink (directory name : string)
      (* cp -rf --reflink=auto "{directory}"/* "{btrfs_path}/{name}" > /dev/null *)
  | EchoTo (text name file : string)
      (* echo "{text}" > "{btrfs_path}/{name}/{file}" *)
  | CpResolv (name : string)
      (* cp /etc/resolv.conf "{btrfs_path}/{name}"/etc/resolv.conf *)
  | Isolate (name cmdline : string)
      (* unshare -fmuip --mount-proc chroot "{btrfs_path}/{name}" /bin/sh -c
         "/bin/mount -t proc proc /proc && {cmdline}" 2>&1
         | tee "{btrfs_path}/{name}/{name}.log" *)
  | Echo (msg : string).
      (* echo "{msg}" *)

(** [[[ ! -f "{btrfs_path}/{name}/{file}" ]]] *)
Inductive test :=
  | NotRegular (name file : string).

Inductive command :=
  | Simple (c : simple)
  | AndList (t : test) (c : simple)    (* t && c *)
  | OrTrue (c : simple).               (* c || true *)

(** A path is matched by the glob [*] when its first component does not
    start with a dot. *)
Definition visible (p : string) : bool :=
  match p with
  | EmptyString => false
  | String c _ => negb (Ascii.eqb c ".")
  end.

Definition visible_part (t : gmap string entry) : gmap string entry :=
  filter (λ kv, visible kv.1 = true) t.

Definition resolv_conf : string := "/etc/resolv.conf".

Section Runtime.

(** The isolated process: from the container's tree and the command line to
    the tree it leaves, its combined output and its exit status. *)
Variable isolate : gmap string entry → string → gmap string entry * string * Z.

Definition update_tree (name : string) (v : volume) (t : gmap string entry)
    (s : State) : State :=
  set_volumes (insert name (Volume (vol_id v) (vol_gen v) t)) s.

Definition exec_simple (c : simple) (s : State) : Z * State :=
  match c with
  | BtrfsCreate name => btrfs_subvolume_create name s
  | BtrfsDelete name => btrfs_subvolume_delete name s
  | BtrfsSnapshot src dst => btrfs_subvolume_snapshot src dst s
  | CpReflink directory name =>
      match st_host s !! directory, resolve name s with
      | Some (HDir t), TVolume v =>
          if decide (visible_part t = ∅) then (1, s)   (* the glob stays literal *)
          else (0, update_tree name v (visible_part t ∪ vol_tree v) s)
      | _, _ => (1, s)
      end
  | EchoTo text name file =>
      match resolve name s with
      | TVolume v =>
          match vol_tree v !! file with
          | Some EDir => (1, s)
          | _ => (0, update_tree name v (<[file := EFile (text +:+ nl)]> (vol_tree v)) s)
          end
      | _ => (1, s)
      end
  | CpResolv name =>
      match st_host s !! resolv_conf, resolve name s with
      | Some (HFile c), TVolume v =>
          match vol_tree v !! "etc", vol_tree v !! "etc/resolv.conf" with
          | Some EDir, Some EDir =>
              (0, update_tree name v
                    (<["etc/resolv.conf/resolv.conf" := EFile c]> (vol_tree v)) s)
          | Some EDir, _ =>
              (0, update_tree name v (<["etc/resolv.conf" := EFile c]> (vol_tree v)) s)
          | _, _ => (1, s)
          end
      | _, _ => (1, s)
      end
  | Isolate name cmdline =>
      match resolve name s with
      | TVolume v =>
          let '(t, out, status) := isolate (vol_tree v) cmdline in
          (status, update_tree name v (<[name +:+ ".log" := EFile out]> t) s)
      | _ => (1, s)
      end
  | Echo _ => (0, s)
  end.

Definition eval_test (t : test) (s : State) : bool :=
  match t with
  | NotRegular name file =>
      match resolve name s with
      | TVolume v =>
          match vol_tree v !! file with
          | Some (EFile _) => false
          | _ => true
          end
      | _ => true
      end
  end.

(** One command under [set -o errexit]: its status, whether the shell
    exits on it, and the state it leaves. *)
Definition step (c : command) (s : State) : Z * bool * State :=
  match c with
  | Simple x =>
      let '(rc, s') := exec_simple x s in (rc, negb (rc =? 0), s')
  | AndList t x =>
      if eval_test t s
      then let '(rc, s') := exec_simple x s in (rc, negb (rc =? 0), s')
      else (1, false, s)
  | OrTrue x =>
      let '(_, s') := exec_simple x s in (0, false, s')
  end.

(** The script's exit status is that of the last command executed. *)
Fixpoint run_script (rc : Z) (cs : list command) (s : State) : Z * State :=
  match cs with
  | [] => (rc, s)
  | c :: cs' =>
      let '(rc', fatal, s') := step c s in
      if fatal then (rc', s') else run_script rc' cs' s'
  end.

(** ** The program *)

(** [_run_bash_command]: the script's exit status either way.  Launching
    [bash] itself is taken to succeed, so the [except] branch is left out. *)
Definition _run_bash_command (bash_script : list command) (show_realtime : bool)
    (s : State) : Z * State :=
  let '(returncode, s') := run_script 0 bash_script s in
  if show_realtime then (returncode, s')
  else if negb (returncode =? 0) then (returncode, s') else (0, s').

(** [_docker_check]: a non-zero status of the listing is the
    [CalledProcessError] branch. *)
Definition _docker_check (container_id : string) (s : State) : bool :=
  let '(returncode, stdout) := btrfs_subvolume_list s in
  if returncode =? 0 then str_in container_id stdout else false.

Definition _generate_uuid (prefix : string) (r : Z) : string :=
  prefix +:+ pretty (randint 42002 42254 r).

Definition _directory_exists (directory : string) (s : State) : bool :=
  bool_decide (is_Some (st_host s !! directory)).

Definition init_script (directory uuid : string) : list command :=
  [ Simple (BtrfsCreate uuid);
    Simple (CpReflink directory uuid);
    AndList (NotRegular uuid "img.source") (EchoTo directory uuid "img.source");
    Simple (Echo ("Created: " +:+ uuid)) ].

(** [init]: every attempt, the recursive ones included, redoes the checks
    and uses one item of entropy; [None] when the entropy runs out before
    a free ID is drawn. *)
Fixpoint init (args : list string) (draws : list Z) (s : State) {struct draws}
    : option (option string * Z * State) :=
  match args with
  | [] => Some (None, 1, s)
  | directory :: _ =>
      if negb (_directory_exists directory s) then Some (None, 1, s)
      else
        match draws with
        | [] => None
        | r :: draws' =>
            let uuid := _generate_uuid "img_" r in
            if _docker_check uuid s then init args draws' s
            else
              let '(returncode, s') :=
                _run_bash_command (init_script directory uuid) false s in
              if returncode =? 0 then Some (Some uuid, 0, s')
              else Some (None, returncode, s')
        end
  end.

Definition rm_script (container_id : string) : list command :=
  [ Simple (BtrfsDelete container_id);
    Simple (Echo ("Removed: " +:+ container_id)) ].

Definition rm (args : list string) (s : State) : Z * State :=
  match args with
  | [] => (1, s)
  | container_id :: _ =>
      if negb (_docker_check container_id s) then (1, s)
      else _run_bash_command (rm_script container_id) false s
  end.

Definition run_script_for (image_id uuid cmdline : string) : list command :=
  [ Simple (BtrfsSnapshot image_id uuid);
    Simple (EchoTo cmdline uuid (uuid +:+ ".cmd"));
    Simple (CpResolv uuid);
    OrTrue (Isolate uuid cmdline) ].

Fixpoint run (args : list string) (draws : list Z) (s : State) {struct draws}
    : option (Z * State) :=
  match args with
  | image_id :: (_ :: _) as rest =>
      let cmdline := join_space rest in
      if negb (_docker_check image_id s) then Some (1, s)
      else if decide (strip cmdline = "") then Some (1, s)
      else
        match draws with
        | [] => None
        | r :: draws' =>
            let uuid := _generate_uuid "ps_" r in
            if _docker_check uuid s then run args draws' s
            else Some (_run_bash_command (run_script_for image_id uuid cmdline) true s)
        end
  | _ => Some (1, s)
  end.

Definition commit_script (container_id image_id : string) : list command :=
  [ Simple (BtrfsDelete image_id);
    Simple (BtrfsSnapshot container_id image_id);
    Simple (Echo ("Created: " +:+ image_id)) ].

Definition commit (args : list string) (s : State) : Z * State :=
  match args with
  | container_id :: image_id :: _ =>
      if negb (_docker_check container_id s) then (1, s)
      else if negb (_docker_check image_id s) then (1, s)
      else _run_bash_command (commit_script container_id image_id) false s
  | _ => (1, s)
  end.

End Runtime.

(** ** Listings *)

(** One globbed path: [None] when reading the marker raises, no row when
    the marker is absent. *)
Definition listing_row (prefix : string) (marker : string → string)
    (kv : string * volume) : option (list (string * string)) :=
  if String.prefix prefix kv.1 then
    match vol_tree kv.2 !! marker kv.1 with
    | None => Some []
    | Some (EFile c) => Some [(kv.1, strip c)]
    | Some EDir => None
    end
  else Some [].

Fixpoint listing_rows (prefix : string) (marker : string → string)
    (kvs : list (string * volume)) : option (list (string * string)) :=
  match kvs with
  | [] => Some []
  | kv :: rest =>
      match listing_row prefix marker kv, listing_rows prefix marker rest with
      | Some r, Some rs => Some (r ++ rs)%list
      | _, _ => None
      end
  end.

(** Rows [(id, source)] for [glob("{btrfs_path}/img_*")]. *)
Definition _list_images (s : State) : option (list (string * string)) :=
  listing_rows "img_" (λ _, "img.source") (map_to_list (st_volumes s)).

(** Rows [(id, command)] for [glob("{btrfs_path}/ps_*")]. *)
Definition _list_containers (s : State) : option (list (string * string)) :=
  listing_rows "ps_" (λ ps_id, ps_id +:+ ".cmd") (map_to_list (st_volumes s)).

(** ** Sample machines *)

Definition base_tree : gmap string entry :=
  {[ "etc" := EDir; "etc/hostname" := EFile "alma"; "bin" := EDir;
     "bin/sh" := EFile "sh"; ".hidden" := EFile "h" ]}.

(** The directory [/marked] of the sample host. *)
Definition marked_tree : gmap string entry :=
  {[ "img.source" := EFile "elsewhere"; "etc" := EDir ]}.

Definition sample_host : gmap string hnode :=
  {[ "/base" := HDir base_tree;
     "/empty" := HDir ∅;
     "/marked" := HDir marked_tree;
     resolv_conf := HFile "nameserver 10.0.0.1" ]}.

Definition s_empty : State := MkState ∅ sample_host 256 7.

(** An isolated process that logs one line and fails with status 127. *)
Definition failing_process (t : gmap string entry) (cmdline : string)
    : gmap string entry * string * Z :=
  (t, "sh: " +:+ cmdline +:+ ": command not found", 127).

(** ** Vocabulary of the statements *)

(** The candidate that the redraw-on-collision recursion shared by [init]
    and [run] settles on: the first draw whose ID passes for free. *)
Fixpoint first_free (prefix : string) (draws : list Z) (s : State) : option string :=
  match draws with
  | [] => None
  | r :: draws' =>
      let uuid := _generate_uuid prefix r in
      if _docker_check uuid s then first_free prefix draws' s else Some uuid
  end.





(** The storage part of the script of [run]: everything before the
    isolated process is started. *)
Definition storage_steps (image_id uuid cmdline : string) : list command :=
  [ Simple (BtrfsSnapshot image_id uuid);
    Simple (EchoTo cmdline uuid (uuid +:+ ".cmd"));
    Simple (CpResolv uuid) ].

(** The state left by an operation, or the given one when the entropy ran
    out. *)
Definition state_after {A : Type} (r : option (A * State)) (s : State) : State :=
  match r with
  | Some (_, s') => s'
  | None => s
  end.


(** [init /base], then [run img_42002 wget] on it. *)
Definition s_image : State :=
  state_after (init failing_process ["/base"] [0] s_empty) s_empty.

Definition s_pair : State :=
  state_after (run failing_process ["img_42002"; "wget"] [0] s_image) s_image.

(** A store holding one subvolume made by hand, whose name extends an ID
    of the image namespace. *)
Definition s_long : State :=
  MkState {[ "img_420021" := Volume 256 8 ∅ ]} sample_host 257 8.

(** The volumes of [s_pair], and [s_pair] after [commit ps_42002 img_42002]. *)
Definition v_image : volume :=
  default (Volume 0 0 ∅) (st_volumes s_pair !! "img_42002").

Definition v_container : volume :=
  default (Volume 0 0 ∅) (st_volumes s_pair !! "ps_42002").

Definition s_committed : State :=
  (commit failing_process ["ps_42002"; "img_42002"] s_pair).2.

(** [s_image] once its only image has been deleted. *)
Definition s_deleted : State := set_volumes (delete "img_42002") s_image.


(** ** More of the program: tables and the listing commands *)

(** Two tab characters, the column separator of the tables. *)
Definition tab2 : string := String "009"%char (String "009"%char EmptyString).

(** Python's [sep.join(xs)]. *)
Fixpoint join (sep : string) (xs : list string) : string :=
  match xs with
  | [] => ""
  | [x] => x
  | x :: rest => x +:+ sep +:+ join sep rest
  end.

Definition _format_table_output (headers : list string) (rows : list (list string))
    : string :=
  match rows with
  | [] => join tab2 headers
  | _ => join nl (join tab2 headers :: map (join tab2) rows)
  end.

(** [images]: the text handed to [print] and the return code; [None] when
    [_list_images] raises. *)
Definition images (args : list string) (s : State) : option (string * Z) :=
  match _list_images s with
  | None => None
  | Some images_list =>
      match images_list with
      | [] => Some ("IMAGE_ID" +:+ tab2 +:+ "SOURCE", 0)
      | _ =>
          let rows := map (λ img : string * string, [img.1; img.2]) images_list in
          Some (_format_table_output ["IMAGE_ID"; "SOURCE"] rows, 0)
      end
  end.

(** [ps], likewise over the containers. *)
Definition ps (args : list string) (s : State) : option (string * Z) :=
  match _list_containers s with
  | None => None
  | Some containers =>
      match containers with
      | [] => Some ("CONTAINER_ID" +:+ tab2 +:+ "COMMAND", 0)
      | _ =>
          let rows := map (λ container : string * string, [container.1; container.2])
                        containers in
          Some (_format_table_output ["CONTAINER_ID"; "COMMAND"] rows, 0)
      end
  end.

(** ** Vocabulary of the further statements *)

(** The one volume name a simple command can write to. *)
Definition touched (c : simple) : option string :=
  match c with
  | BtrfsCreate name | BtrfsDelete name | CpReflink _ name
  | EchoTo _ name _ | CpResolv name | Isolate name _ => Some name
  | BtrfsSnapshot _ dst => Some dst
  | Echo _ => None
  end.

Definition removes (c : simple) : bool :=
  match c with
  | BtrfsDelete _ => true
  | _ => false
  end.

Definition body (c : command) : simple :=
  match c with
  | Simple x | AndList _ x | OrTrue x => x
  end.

(** [s'] differs from [s] at most in the volume called [name]: the same
    host, and the same volume or none under every other name. *)
Definition differs_at (name : string) (s s' : State) : Prop :=
  st_host s' = st_host s
  ∧ ∀ k, k ≠ name → st_volumes s' !! k = st_volumes s !! k.

(** A host path on which the glob ["{directory}"/*] matches nothing. *)
Definition glob_empty (node : hnode) : Prop :=
  match node with
  | HDir t => visible_part t = ∅
  | HFile _ => True
  end.


(** The lines below the header of a two-column table. *)
Fixpoint table_lines (rows : list (string * string)) : string :=
  match rows with
  | [] => ""
  | r :: rest => nl +:+ r.1 +:+ tab2 +:+ r.2 +:+ table_lines rest
  end.

(** The [k]-th ID of a namespace, [k] counted from 0. *)
Definition nth_id (prefix : string) (k : nat) : string :=
  prefix +:+ pretty (42002 + Z.of_nat k).

(** Whether all 253 IDs of a namespace name volumes. *)
Definition namespace_full (prefix : string) (s : State) : bool :=
  forallb (λ k, bool_decide (is_Some (st_volumes s !! nth_id prefix k))) (seq 0 253).

(** A store in which every image ID is taken. *)
Definition s_full : State :=
  MkState (list_to_map (map (λ k, (nth_id "img_" k, Volume (256 + N.of_nat k) 8 ∅))
                          (seq 0 253)))
          sample_host 509 8.


(** ** The profiling script (src/w1d0/w1d0_answers.py) *)

Module Intel.

Local Unset Elimination Schemes.

(** A decoded JSON document, as [response.json()] returns it. *)
Inductive json :=
  | JNull
  | JBool (b : bool)
  | JNum (z : Z)
  | JStr (s : string)
  | JArr (items : list json)
  | JObj (fields : gmap string json).

Local Set Elimination Schemes.

(** What [requests.get] returns: the status code and the decoded body,
    [None] when the body is not JSON and [.json()] raises. *)
Record response := Response {
  status_code : Z;
  body : option json
}.

(** Python's [None] in a field is [JNull]. *)
Record UserIntel := MkUserIntel {
  username : string;
  name : json;
  location : json;
  email : json;
  repo_names : list json
}.

(** [d.get(key)]: [None] here when [d] has no such method. *)
Definition dict_get (d : json) (key : string) : option json :=
  match d with
  | JObj fields => Some (default JNull (fields !! key))
  | _ => None
  end.

(** [d[key]] for a string key: it raises on a missing key and on
    anything but a dict. *)
Definition subscript (d : json) (key : string) : option json :=
  match d with
  | JObj fields => fields !! key
  | _ => None
  end.

Fixpoint chars (s : string) : list json :=
  match s with
  | EmptyString => []
  | String c s' => JStr (String c EmptyString) :: chars s'
  end.

(** The items that [for repo in d[:5]] goes through: a list and a string
    can be sliced, nothing else. *)
Definition first_five (d : json) : option (list json) :=
  match d with
  | JArr items => Some (take 5 items)
  | JStr s => Some (take 5 (chars s))
  | _ => None
  end.

Definition user_url (username : string) : string :=
  "https://api.github.com/users/" +:+ username.

Definition repos_url (username : string) : string :=
  "https://api.github.com/users/" +:+ username +:+ "/repos?sort=updated&per_page=5".

(** [analyze_user_behavior], over the answers [get] of the network; [None]
    when a request or a later step raises. *)
Definition analyze_user_behavior (get : string → option response) (username : string)
    : option UserIntel :=
  user_response ← get (user_url username);
  if negb (status_code user_response =? 200)
  then Some (MkUserIntel username JNull JNull JNull [])
  else
    user_data ← body user_response;
    name ← dict_get user_data "name";
    location ← dict_get user_data "location";
    email ← dict_get user_data "email";
    repos_response ← get (repos_url username);
    repo_names ←
      (if status_code repos_response =? 200
       then
         repos_data ← body repos_response;
         repos ← first_five repos_data;
         mapM (λ repo, subscript repo "name") repos
       else Some []);
    Some (MkUserIntel username name location email repo_names).

(** Sample answers of the network for the user [octocat]. *)
Definition sample_profile : json :=
  JObj {[ "name" := JStr "The Octocat"; "location" := JStr "San Francisco";
          "email" := JNull ]}.

Definition repo (repo_name : string) : json :=
  JObj {[ "name" := JStr repo_name; "fork" := JBool false ]}.

Definition sample_get (repos : list json) (url : string) : option response :=
  if decide (url = user_url "octocat") then Some (Response 200 (Some sample_profile))
  else if decide (url = repos_url "octocat") then Some (Response 200 (Some (JArr repos)))
  else Some (Response 404 None).

Definition five_repos : list json :=
  [repo "a"; repo "b"; repo "c"; repo "d"; repo "e"].

End Intel.

(** Projections of the states built by the storage engine. *)
Ltac simpl_state :=
  cbn [st_host st_volumes st_next_id st_gen bump set_volumes
       fresh_volume vol_tree vol_id vol_gen] in *.

(** ** Substring containment *)

Lemma app_nil_l' (b : string) : "" +:+ b = b.
Proof. reflexivity. Qed.

Lemma app_cons (c : ascii) (a b : string) : String c a +:+ b = String c (a +:+ b).
Proof. reflexivity. Qed.

Lemma app_nil_r' (a : string) : a +:+ "" = a.
Proof. induction a as [|c a IH]; [done | by rewrite app_cons, IH]. Qed.

Lemma string_app_assoc (a b c : string) : (a +:+ b) +:+ c = a +:+ b +:+ c.
Proof. induction a as [|x a IH]; [done | by rewrite !app_cons, IH]. Qed.

Lemma prefix_spec (p t : string) :
  String.prefix p t = true ↔ ∃ r, t = p +:+ r.
Proof.
  revert t. induction p as [|a p IH]; intros t; simpl.
  - destruct t; (split; [intros _; by eexists | done]).
  - destruct t as [|b t]; simpl.
    + split; [discriminate | intros [r Hr]; rewrite app_cons in Hr; discriminate].
    + destruct (Ascii.ascii_dec a b) as [->|Hne].
      * rewrite IH. split; intros [r Hr]; exists r; rewrite app_cons in *; congruence.
      * split; [discriminate | intros [r Hr]; rewrite app_cons in Hr; congruence].
Qed.

Lemma str_in_nil (n : string) : str_in n "" = String.prefix n "" || false.
Proof. reflexivity. Qed.

Lemma str_in_cons (n : string) (c : ascii) (h : string) :
  str_in n (String c h) = String.prefix n (String c h) || str_in n h.
Proof. reflexivity. Qed.

Lemma str_in_spec (n h : string) :
  str_in n h = true ↔ ∃ l r, h = l +:+ n +:+ r.
Proof.
  induction h as [|c h IH]; [rewrite str_in_nil | rewrite str_in_cons].
  - rewrite orb_false_r, prefix_spec. split.
    + intros [r Hr]. by exists "", r.
    + intros (l & r & Hlr). destruct l; [eauto | rewrite app_cons in Hlr; discriminate].
  - rewrite orb_true_iff, prefix_spec, IH. split.
    + intros [[r Hr] | (l & r & Hlr)].
      * by exists "", r.
      * exists (String c l), r. by rewrite app_cons, Hlr.
    + intros (l & r & Hlr). destruct l as [|c' l].
      * left. eauto.
      * right. exists l, r. rewrite app_cons in Hlr. congruence.
Qed.

Lemma str_in_refl (n : string) : str_in n n = true.
Proof. apply str_in_spec. exists "", "". by rewrite app_nil_r'. Qed.

Lemma str_in_empty (h : string) : str_in "" h = true.
Proof. destruct h; reflexivity. Qed.

Lemma str_in_trans (a b c : string) :
  str_in a b = true → str_in b c = true → str_in a c = true.
Proof.
  rewrite !str_in_spec. intros (l1 & r1 & ->) (l2 & r2 & ->).
  exists (l2 +:+ l1), (r1 +:+ r2). by rewrite !string_app_assoc.
Qed.

Lemma str_in_line (name : string) (v : volume) :
  str_in name (list_line name v) = true.
Proof.
  apply str_in_spec. unfold list_line.
  exists ("ID " +:+ pretty (vol_id v) +:+ " gen " +:+ pretty (vol_gen v)
          +:+ " top level 5 path "), nl.
  by rewrite !string_app_assoc.
Qed.

Lemma str_in_lines (name : string) (v : volume) (kvs : list (string * volume)) :
  (name, v) ∈ kvs → str_in name (list_lines kvs) = true.
Proof.
  induction kvs as [|[k w] kvs IH]; intros Hin.
  - by apply not_elem_of_nil in Hin.
  - cbn [list_lines]. apply elem_of_cons in Hin as [Heq | Hin].
    + injection Heq as <- <-.
      apply (str_in_trans _ _ _ (str_in_line name v)).
      apply str_in_spec. by exists "", (list_lines kvs).
    + apply (str_in_trans _ _ _ (IH Hin)).
      apply str_in_spec. exists (list_line k w), "".
      by rewrite app_nil_r'.
Qed.

(** The listing mentions every subvolume by name. *)
Lemma _docker_check_present (name : string) (v : volume) (s : State) :
  st_volumes s !! name = Some v → _docker_check name s = true.
Proof.
  intros Hv. unfold _docker_check, btrfs_subvolume_list. simpl.
  apply (str_in_lines name v). by apply elem_of_map_to_list.
Qed.

(** ... and with it every substring of a subvolume's name. *)
Lemma _docker_check_substring (id name : string) (v : volume) (s : State) :
  st_volumes s !! name = Some v → str_in id name = true →
  _docker_check id s = true.
Proof.
  intros Hv Hsub. unfold _docker_check, btrfs_subvolume_list. simpl.
  apply (str_in_trans _ _ _ Hsub).
  apply (str_in_lines name v). by apply elem_of_map_to_list.
Qed.

Lemma _docker_check_absent (id : string) (s : State) :
  _docker_check id s = false → st_volumes s !! id = None.
Proof.
  intros Hc. destruct (st_volumes s !! id) as [v|] eqn:Hv; [|done].
  by rewrite (_docker_check_present _ _ _ Hv) in Hc.
Qed.

(** ** The storage engine, step by step *)

Lemma resolve_volume (name : string) (v : volume) (s : State) :
  st_volumes s !! name = Some v → resolve name s = TVolume v.
Proof. intros Hv. unfold resolve. by rewrite Hv. Qed.

Lemma resolve_volume_inv (name : string) (v : volume) (s : State) :
  resolve name s = TVolume v → st_volumes s !! name = Some v.
Proof.
  unfold resolve. destruct (st_volumes s !! name); [congruence|].
  by destruct (decide (name = "")).
Qed.

Lemma resolve_missing_inv (name : string) (s : State) :
  resolve name s = TMissing → st_volumes s !! name = None ∧ name ≠ "".
Proof.
  unfold resolve. destruct (st_volumes s !! name); [done|].
  by destruct (decide (name = "")).
Qed.

Lemma delete_ok (name : string) (v : volume) (s : State) :
  st_volumes s !! name = Some v →
  btrfs_subvolume_delete name s = (0, set_volumes (delete name) s).
Proof. intros Hv. unfold btrfs_subvolume_delete. by rewrite (resolve_volume _ _ _ Hv). Qed.

Lemma delete_inv (name : string) (s s' : State) (rc : Z) :
  btrfs_subvolume_delete name s = (rc, s') →
  (rc = 0 ∧ is_Some (st_volumes s !! name) ∧ s' = set_volumes (delete name) s)
  ∨ (rc = 1 ∧ st_volumes s !! name = None ∧ s' = s).
Proof.
  unfold btrfs_subvolume_delete. destruct (resolve name s) as [v| |] eqn:Hr.
  - apply resolve_volume_inv in Hr. intros [= <- <-]. left. eauto.
  - unfold resolve in Hr. destruct (st_volumes s !! name) eqn:Hv; [done|].
    intros [= <- <-]. by right.
  - apply resolve_missing_inv in Hr as [Hv _]. intros [= <- <-]. by right.
Qed.

Lemma snapshot_inv (src dst : string) (s s' : State) (rc : Z) :
  btrfs_subvolume_snapshot src dst s = (rc, s') →
  (rc = 0 ∧ ∃ t, source_tree src s = Some t ∧ st_volumes s !! dst = None ∧ dst ≠ ""
     ∧ s' = bump (set_volumes (insert dst (fresh_volume t s)) s))
  ∨ (rc = 1 ∧ s' = s).
Proof.
  unfold btrfs_subvolume_snapshot, source_tree.
  destruct (resolve src s) as [v| |] eqn:Hsrc;
    destruct (resolve dst s) as [w| |] eqn:Hdst;
    intros [= <- <-]; try (by right);
    apply resolve_missing_inv in Hdst as [Hd Hne]; left; eauto 10.
Qed.

Lemma snapshot_ok (src dst : string) (v : volume) (s : State) :
  st_volumes s !! src = Some v → st_volumes s !! dst = None → dst ≠ "" →
  btrfs_subvolume_snapshot src dst s
  = (0, bump (set_volumes (insert dst (fresh_volume (vol_tree v) s)) s)).
Proof.
  intros Hs Hd Hne. unfold btrfs_subvolume_snapshot.
  rewrite (resolve_volume _ _ _ Hs). unfold resolve. rewrite Hd.
  by destruct (decide (dst = "")).
Qed.

Lemma create_ok (name : string) (s : State) :
  st_volumes s !! name = None → name ≠ "" →
  btrfs_subvolume_create name s
  = (0, bump (set_volumes (insert name (fresh_volume ∅ s)) s)).
Proof.
  intros Hn Hne. unfold btrfs_subvolume_create, resolve. rewrite Hn.
  by destruct (decide (name = "")).
Qed.

Section Properties.

Variable isolate : gmap string entry → string → gmap string entry * string * Z.

(** ** Commit *)

(** Past its two existence checks, [commit] is the delete followed, when
    it succeeded, by the snapshot; the final [echo] cannot fail. *)
Lemma commit_steps (container_id image_id : string) (rest : list string) (s : State) :
  _docker_check container_id s = true → _docker_check image_id s = true →
  commit isolate (container_id :: image_id :: rest) s
  = let '(rc1, s1) := btrfs_subvolume_delete image_id s in
    if rc1 =? 0 then btrfs_subvolume_snapshot container_id image_id s1
    else (rc1, s1).
Proof.
  intros Hc Hi. unfold commit. rewrite Hc, Hi. cbn [negb].
  unfold _run_bash_command, commit_script. cbn [run_script step exec_simple].
  destruct (btrfs_subvolume_delete image_id s) as [rc1 s1] eqn:Hdel.
  apply delete_inv in Hdel as [(-> & _ & _) | (-> & _ & _)]; cbn; [|done].
  destruct (btrfs_subvolume_snapshot container_id image_id s1) as [rc2 s2] eqn:Hsnap.
  by apply snapshot_inv in Hsnap as [(-> & _) | (-> & _)].
Qed.

Lemma commit_checked (container_id image_id : string) (rest : list string) (s s' : State) :
  commit isolate (container_id :: image_id :: rest) s = (0, s') →
  _docker_check container_id s = true ∧ _docker_check image_id s = true.
Proof.
  unfold commit.
  destruct (_docker_check container_id s); [|discriminate].
  destruct (_docker_check image_id s); [done | discriminate].
Qed.

(** What a successful commit has done to the store. *)
Lemma commit_success (container_id image_id : string) (rest : list string) (s s' : State) :
  commit isolate (container_id :: image_id :: rest) s = (0, s') →
  ∃ t, source_tree container_id (set_volumes (delete image_id) s) = Some t
    ∧ is_Some (st_volumes s !! image_id)
    ∧ image_id ≠ ""
    ∧ st_volumes s'
      = <[image_id := Volume (st_next_id s) (N.succ (st_gen s)) t]> (st_volumes s).
Proof.
  intros Hrun. destruct (commit_checked _ _ _ _ _ Hrun) as [Hc Hi].
  rewrite (commit_steps _ _ _ _ Hc Hi) in Hrun.
  destruct (btrfs_subvolume_delete image_id s) as [rc1 s1] eqn:Hdel.
  apply delete_inv in Hdel as [(-> & Hsome & ->) | (-> & _ & _)]; [|discriminate].
  cbn in Hrun.
  apply snapshot_inv in Hrun as [(_ & t & Ht & _ & Hne & ->) | (? & _)]; [|discriminate].
  exists t. repeat split; [done..|].
  cbn. apply insert_delete_eq.
Qed.

(** C1. For an existing container and an existing image, a successful
    commit leaves at the image's ID a volume whose tree is the one the
    container had at commit time, and the container's volume is the very
    same volume afterwards. *)
Theorem commit_copies_container (container_id image_id : string) (rest : list string)
    (vc vi : volume) (s s' : State) :
  st_volumes s !! container_id = Some vc →
  st_volumes s !! image_id = Some vi →
  commit isolate (container_id :: image_id :: rest) s = (0, s') →
  (∃ v', st_volumes s' !! image_id = Some v' ∧ vol_tree v' = vol_tree vc)
  ∧ st_volumes s' !! container_id = Some vc.
Proof.
  intros Hc Hi Hrun.
  destruct (commit_success _ _ _ _ _ Hrun) as (t & Ht & _ & Hne & Hvols).
  assert (container_id ≠ image_id) as Hdiff.
  { intros ->. unfold source_tree, resolve in Ht. cbn in Ht.
    rewrite lookup_delete_eq in Ht. by destruct (decide (image_id = "")). }
  unfold source_tree in Ht.
  rewrite (resolve_volume _ vc) in Ht by (cbn; by rewrite lookup_delete_ne).
  injection Ht as <-. rewrite Hvols. split.
  - eexists. by rewrite lookup_insert_eq.
  - by rewrite lookup_insert_ne.
Qed.

(** C3. A successful commit allocates no ID: the set of volume names is
    the same before and after, the image's name is bound before and after
    (to a freshly numbered subvolume afterwards), and every other volume,
    containers included, is untouched. *)
Theorem commit_allocates_no_id (container_id image_id : string) (rest : list string)
    (s s' : State) :
  commit isolate (container_id :: image_id :: rest) s = (0, s') →
  dom (st_volumes s') = dom (st_volumes s)
  ∧ is_Some (st_volumes s !! image_id)
  ∧ (∃ v', st_volumes s' !! image_id = Some v' ∧ vol_id v' = st_next_id s)
  ∧ (∀ k, k ≠ image_id → st_volumes s' !! k = st_volumes s !! k).
Proof.
  intros Hrun.
  destruct (commit_success _ _ _ _ _ Hrun) as (t & _ & Hsome & _ & Hvols).
  rewrite Hvols. repeat split.
  - by apply dom_insert_lookup_L.
  - done.
  - eexists. by rewrite lookup_insert_eq.
  - intros k Hk. by rewrite lookup_insert_ne.
Qed.

(** C4. Past validation, commit first deletes the image's volume and only
    then snapshots the container into it; when the delete succeeds and the
    snapshot fails, commit reports the snapshot's status and leaves the
    store as the delete left it: no volume at the image's ID. *)
Theorem commit_delete_then_snapshot (container_id image_id : string) (rest : list string)
    (s s1 s2 : State) (rc : Z) :
  _docker_check container_id s = true →
  _docker_check image_id s = true →
  btrfs_subvolume_delete image_id s = (0, s1) →
  btrfs_subvolume_snapshot container_id image_id s1 = (rc, s2) →
  rc ≠ 0 →
  commit isolate (container_id :: image_id :: rest) s = (rc, s1)
  ∧ is_Some (st_volumes s !! image_id)
  ∧ st_volumes s1 !! image_id = None.
Proof.
  intros Hc Hi Hdel Hsnap Hrc.
  rewrite (commit_steps _ _ _ _ Hc Hi), Hdel. cbn.
  apply snapshot_inv in Hsnap as Hinv. destruct Hinv as [(-> & _) | (-> & ->)]; [done|].
  split; [done|].
  apply delete_inv in Hdel as [(_ & Hsome & ->) | (? & _)]; [|done].
  split; [done|]. cbn. apply lookup_delete_eq.
Qed.

(** ** Listings and removal *)

Lemma listing_rows_ids (prefix : string) (marker : string → string)
    (kvs : list (string * volume)) (rows : list (string * string)) (id : string) :
  listing_rows prefix marker kvs = Some rows → id ∈ rows.*1 → id ∈ kvs.*1.
Proof.
  revert rows. induction kvs as [|kv kvs IH]; intros rows; cbn [listing_rows].
  - intros [= <-] Hin. by apply not_elem_of_nil in Hin.
  - destruct (listing_row prefix marker kv) as [r|] eqn:Hrow; [|done].
    destruct (listing_rows prefix marker kvs) as [rs|]; [|done].
    intros [= <-]. rewrite fmap_app, elem_of_app, fmap_cons, elem_of_cons.
    intros [Hin | Hin]; [left | right; by eapply IH].
    unfold listing_row in Hrow. destruct (String.prefix prefix kv.1).
    + destruct (vol_tree kv.2 !! marker kv.1) as [[c|]|]; simplify_eq;
        [|by apply not_elem_of_nil in Hin].
      by apply list_elem_of_singleton in Hin.
    + simplify_eq. by apply not_elem_of_nil in Hin.
Qed.

Lemma listing_rows_total (prefix : string) (marker : string → string)
    (kvs : list (string * volume)) :
  is_Some (listing_rows prefix marker kvs)
  ↔ Forall (λ kv, is_Some (listing_row prefix marker kv)) kvs.
Proof.
  induction kvs as [|kv kvs IH]; cbn [listing_rows].
  - split; [by constructor | eauto].
  - rewrite Forall_cons, <- IH.
    destruct (listing_row prefix marker kv), (listing_rows prefix marker kvs);
      split; try (intros [? ?]); try (intros [[? ?] [? ?]]); try done; eauto.
Qed.

(** A listing made after a volume has been deleted is produced whenever
    the one before was, and does not mention the deleted name. *)
Lemma listing_after_delete (prefix : string) (marker : string → string)
    (id : string) (m : gmap string volume) :
  (is_Some (listing_rows prefix marker (map_to_list m))
   → is_Some (listing_rows prefix marker (map_to_list (delete id m))))
  ∧ (∀ rows, listing_rows prefix marker (map_to_list (delete id m)) = Some rows
     → id ∉ rows.*1).
Proof.
  split.
  - rewrite !listing_rows_total, !Forall_forall. intros Hall [k v] Hin.
    apply Hall. apply elem_of_map_to_list in Hin. apply elem_of_map_to_list.
    apply lookup_delete_Some in Hin. tauto.
  - intros rows Hrows Hin.
    apply (listing_rows_ids _ _ _ _ _ Hrows) in Hin.
    apply list_elem_of_fmap in Hin as ([k v] & -> & Hin).
    apply elem_of_map_to_list in Hin. cbn in Hin.
    by rewrite lookup_delete_eq in Hin.
Qed.

(** C9. [rm] of a name that is no volume returns 1 and leaves the whole
    state as it was; [rm] of a volume's name returns 0 and deletes exactly
    that volume, after which the image and container listings are still
    produced and do not mention the name. *)
Theorem rm_removes_or_rejects (id : string) (rest : list string) (s : State) :
  (st_volumes s !! id = None → rm isolate (id :: rest) s = (1, s))
  ∧ (∀ v, st_volumes s !! id = Some v →
       ∃ s', rm isolate (id :: rest) s = (0, s')
         ∧ st_volumes s' = delete id (st_volumes s)
         ∧ st_host s' = st_host s
         ∧ (is_Some (_list_images s) → is_Some (_list_images s'))
         ∧ (is_Some (_list_containers s) → is_Some (_list_containers s'))
         ∧ (∀ rows, _list_images s' = Some rows → id ∉ rows.*1)
         ∧ (∀ rows, _list_containers s' = Some rows → id ∉ rows.*1)).
Proof.
  split.
  - intros Hnone. unfold rm. destruct (_docker_check id s); [|done].
    cbn [negb]. unfold _run_bash_command, rm_script. cbn [run_script step exec_simple].
    destruct (btrfs_subvolume_delete id s) as [rc s1] eqn:Hdel.
    apply delete_inv in Hdel as [(_ & [w Hw] & _) | (-> & _ & ->)]; [congruence | done].
  - intros v Hv. exists (set_volumes (delete id) s).
    unfold rm. rewrite (_docker_check_present _ _ _ Hv). cbn [negb].
    unfold _run_bash_command, rm_script. cbn [run_script step exec_simple].
    rewrite (delete_ok _ _ _ Hv). cbn.
    destruct (listing_after_delete "img_" (λ _, "img.source") id (st_volumes s))
      as [Hi1 Hi2].
    destruct (listing_after_delete "ps_" (λ ps_id, ps_id +:+ ".cmd") id (st_volumes s))
      as [Hc1 Hc2].
    by repeat split.
Qed.

(** ** Identity allocation *)

Lemma randint_range (a b r : Z) : a ≤ b → a ≤ randint a b r ≤ b.
Proof.
  intros Hab. unfold randint.
  pose proof (Z.mod_pos_bound r (b - a + 1)). lia.
Qed.

Lemma _generate_uuid_prefix (prefix : string) (r : Z) :
  String.prefix prefix (_generate_uuid prefix r) = true.
Proof. apply prefix_spec. by eexists. Qed.

Lemma _generate_uuid_nonempty (c : ascii) (prefix : string) (r : Z) :
  _generate_uuid (String c prefix) r ≠ "".
Proof. unfold _generate_uuid. by rewrite app_cons. Qed.

(** [init] on an existing directory: the ID is the first free draw, and
    the script runs once, with that ID. *)
Lemma init_first_free (directory : string) (rest : list string) (draws : list Z)
    (s : State) :
  init isolate (directory :: rest) draws s
  = if negb (_directory_exists directory s) then Some (None, 1, s)
    else
      match first_free "img_" draws s with
      | None => None
      | Some uuid =>
          let '(returncode, s') :=
            _run_bash_command isolate (init_script directory uuid) false s in
          if returncode =? 0 then Some (Some uuid, 0, s')
          else Some (None, returncode, s')
      end.
Proof.
  destruct (_directory_exists directory s) eqn:Hdir; cbn [negb].
  - induction draws as [|r draws IH]; cbn [init first_free]; rewrite Hdir; cbn [negb];
      [done|].
    by destruct (_docker_check (_generate_uuid "img_" r) s).
  - destruct draws; cbn [init]; by rewrite Hdir.
Qed.

(** [run] past its two checks, likewise. *)
Lemma run_first_free (image_id a : string) (rest : list string) (draws : list Z)
    (s : State) :
  run isolate (image_id :: a :: rest) draws s
  = if negb (_docker_check image_id s) then Some (1, s)
    else if decide (strip (join_space (a :: rest)) = "") then Some (1, s)
    else
      match first_free "ps_" draws s with
      | None => None
      | Some uuid =>
          Some (_run_bash_command isolate
                  (run_script_for image_id uuid (join_space (a :: rest))) true s)
      end.
Proof.
  destruct (_docker_check image_id s) eqn:Himg; cbn [negb];
    [|destruct draws; cbn [run]; by rewrite Himg].
  destruct (decide (strip (join_space (a :: rest)) = "")) as [Hcmd|Hcmd].
  { destruct draws; cbn [run]; rewrite Himg; cbn [negb]; by rewrite decide_True. }
  induction draws as [|r draws IH]; cbn [run first_free]; rewrite Himg; cbn [negb];
    rewrite decide_False by done; [done|].
  by destruct (_docker_check (_generate_uuid "ps_" r) s).
Qed.

Lemma first_free_split (prefix : string) (draws : list Z) (s : State) :
  match first_free prefix draws s with
  | Some uuid =>
      ∃ before r after,
        draws = (before ++ r :: after)%list
        ∧ uuid = _generate_uuid prefix r
        ∧ Forall (λ x, _docker_check (_generate_uuid prefix x) s = true) before
        ∧ _docker_check uuid s = false
  | None => Forall (λ x, _docker_check (_generate_uuid prefix x) s = true) draws
  end.
Proof.
  induction draws as [|r draws IH]; cbn [first_free]; [by constructor|].
  destruct (_docker_check (_generate_uuid prefix r) s) eqn:Hc.
  - destruct (first_free prefix draws s) as [uuid|].
    + destruct IH as (before & r' & after & -> & -> & Hall & Hfree).
      exists (r :: before), r', after. repeat split; [|done]. by constructor.
    + by constructor.
  - exists [], r, draws. repeat split; [|done]. by constructor.
Qed.

(** C8. The ID that [init] and [run] issue is the first drawn candidate
    that the existence check reports free; every earlier draw collided and
    was redrawn.  The ID is its namespace prefix followed by a number of
    the closed range 42002..42254, and no volume has that name when it is
    issued.  When every draw collides no ID is issued at all. *)
Theorem issued_id_is_free (directory image_id a : string) (rest others : list string)
    (draws : list Z) (s : State) :
  init isolate (directory :: rest) draws s
  = (if negb (_directory_exists directory s) then Some (None, 1, s)
     else
       match first_free "img_" draws s with
       | None => None
       | Some uuid =>
           let '(returncode, s') :=
             _run_bash_command isolate (init_script directory uuid) false s in
           if returncode =? 0 then Some (Some uuid, 0, s')
           else Some (None, returncode, s')
       end)
  ∧ run isolate (image_id :: a :: others) draws s
    = (if negb (_docker_check image_id s) then Some (1, s)
       else if decide (strip (join_space (a :: others)) = "") then Some (1, s)
       else
         match first_free "ps_" draws s with
         | None => None
         | Some uuid =>
             Some (_run_bash_command isolate
                     (run_script_for image_id uuid (join_space (a :: others))) true s)
         end)
  ∧ ∀ prefix,
      match first_free prefix draws s with
      | Some uuid =>
          String.prefix prefix uuid = true
          ∧ (∃ n, 42002 ≤ n ≤ 42254 ∧ uuid = prefix +:+ pretty n)
          ∧ _docker_check uuid s = false
          ∧ st_volumes s !! uuid = None
          ∧ ∃ before r after,
              draws = (before ++ r :: after)%list
              ∧ uuid = _generate_uuid prefix r
              ∧ Forall (λ x, _docker_check (_generate_uuid prefix x) s = true) before
      | None => Forall (λ x, _docker_check (_generate_uuid prefix x) s = true) draws
      end.
Proof.
  split; [apply init_first_free|].
  split; [apply run_first_free|].
  intros prefix. pose proof (first_free_split prefix draws s) as Hsplit.
  destruct (first_free prefix draws s) as [uuid|]; [|done].
  destruct Hsplit as (before & r & after & Hdraws & -> & Hall & Hfree).
  split; [apply _generate_uuid_prefix|].
  split.
  { exists (randint 42002 42254 r). split; [|done]. by apply randint_range. }
  split; [done|]. split; [by apply _docker_check_absent|].
  by exists before, r, after.
Qed.

(** ** Validation *)

(** An operation whose existence check fails returns 1 with the state
    untouched. *)
Lemma commit_rejects (container_id image_id : string) (rest : list string) (s : State) :
  _docker_check container_id s = false ∨ _docker_check image_id s = false →
  commit isolate (container_id :: image_id :: rest) s = (1, s).
Proof.
  unfold commit. intros [-> | ->]; [done|].
  by destruct (_docker_check container_id s).
Qed.

Lemma run_rejects (image_id a : string) (rest : list string) (ds : list Z)
    (s : State) :
  _docker_check image_id s = false ∨ strip (join_space (a :: rest)) = "" →
  run isolate (image_id :: a :: rest) ds s = Some (1, s).
Proof.
  rewrite run_first_free. intros [-> | Hempty]; [done|].
  destruct (_docker_check image_id s); [|done]. cbn [negb].
  by rewrite decide_True.
Qed.

(** C10. The existence check is a substring test on the listing.  A name
    that is no volume but occurs inside the name of one passes it: [rm],
    [commit] (in either position) and [run] go on to their scripts with
    it, and [init] and [run] redraw when they have drawn it. *)
Theorem substring_passes_existence_check (id name : string) (v : volume) (s : State) :
  st_volumes s !! id = None →
  st_volumes s !! name = Some v →
  str_in id name = true →
  _docker_check id s = true
  ∧ (∀ rest, rm isolate (id :: rest) s
             = _run_bash_command isolate (rm_script id) false s)
  ∧ (∀ other rest, _docker_check other s = true →
       commit isolate (id :: other :: rest) s
       = _run_bash_command isolate (commit_script id other) false s
       ∧ commit isolate (other :: id :: rest) s
         = _run_bash_command isolate (commit_script other id) false s)
  ∧ (∀ a rest draws, strip (join_space (a :: rest)) ≠ "" →
       run isolate (id :: a :: rest) draws s
       = match first_free "ps_" draws s with
         | None => None
         | Some uuid =>
             Some (_run_bash_command isolate
                     (run_script_for id uuid (join_space (a :: rest))) true s)
         end)
  ∧ (∀ r draws args, id = _generate_uuid "img_" r →
       init isolate args (r :: draws) s = init isolate args draws s)
  ∧ (∀ r draws args, id = _generate_uuid "ps_" r →
       run isolate args (r :: draws) s = run isolate args draws s).
Proof.
  intros _ Hname Hsub.
  pose proof (_docker_check_substring _ _ _ _ Hname Hsub) as Hcheck.
  split; [done|]. split.
  { intros rest. unfold rm. by rewrite Hcheck. }
  split.
  { intros other rest Hother. unfold commit. by rewrite Hcheck, Hother. }
  split.
  { intros a rest draws Hcmd. rewrite run_first_free, Hcheck. cbn [negb].
    by rewrite decide_False. }
  split.
  - intros r draws [|directory rest] ->; [by destruct draws|].
    rewrite !init_first_free. cbn [first_free]. by rewrite Hcheck.
  - intros r draws [|image_id [|a rest]] ->; [by destruct draws..|].
    rewrite !run_first_free. cbn [first_free]. by rewrite Hcheck.
Qed.

(** ** Image creation *)





Lemma first_free_unused (prefix : string) (draws : list Z) (uuid : string) (s : State) :
  first_free prefix draws s = Some uuid →
  st_volumes s !! uuid = None ∧ ∃ r, uuid = _generate_uuid prefix r.
Proof.
  intros Hff. pose proof (first_free_split prefix draws s) as Hsplit.
  rewrite Hff in Hsplit. destruct Hsplit as (_ & r & _ & _ & -> & _ & Hfree).
  split; [by apply _docker_check_absent | by exists r].
Qed.


(** ** Container creation *)

Lemma cp_resolv_ok (name : string) (s s' : State) :
  exec_simple isolate (CpResolv name) s = (0, s') →
  is_Some (st_volumes s' !! name).
Proof.
  cbn [exec_simple].
  destruct (st_host s !! resolv_conf) as [[c|]|]; [|done..].
  destruct (resolve name s) as [v| |]; [|done..].
  destruct (vol_tree v !! "etc") as [[|]|]; [done| |done].
  destruct (vol_tree v !! "etc/resolv.conf") as [[|]|];
    intros [= <-]; unfold update_tree; simpl_state;
    rewrite lookup_insert_eq; eauto.
Qed.

(** When the storage part of the script succeeds, the whole script ends
    with status 0 in the state left by the isolated process. *)
Lemma run_script_after_storage (image_id uuid cmdline : string) (s s3 : State) :
  run_script isolate 0 (storage_steps image_id uuid cmdline) s = (0, s3) →
  is_Some (st_volumes s3 !! uuid)
  ∧ run_script isolate 0 (run_script_for image_id uuid cmdline) s
    = (0, (exec_simple isolate (Isolate uuid cmdline) s3).2).
Proof.
  unfold storage_steps, run_script_for. cbn [run_script step].
  destruct (exec_simple isolate (BtrfsSnapshot image_id uuid) s) as [rc1 s1].
  destruct (rc1 =? 0) eqn:H1; cbn [negb]; [|intros [= -> _]; done].
  destruct (exec_simple isolate (EchoTo cmdline uuid (uuid +:+ ".cmd")) s1) as [rc2 s2].
  destruct (rc2 =? 0) eqn:H2; cbn [negb]; [|intros [= -> _]; done].
  destruct (exec_simple isolate (CpResolv uuid) s2) as [rc3 s3'] eqn:H3.
  destruct (rc3 =? 0) eqn:H3'; cbn [negb]; [|intros [= -> _]; done].
  intros [= -> ->]. split; [by eapply cp_resolv_ok|].
  by destruct (exec_simple isolate (Isolate uuid cmdline) s3).
Qed.

(** The storage part succeeds on a free container ID when the image
    exists with an [etc] directory and the host has a [resolv.conf]. *)
Lemma storage_steps_ok (image_id uuid cmdline c : string) (vi : volume) (s : State) :
  st_volumes s !! image_id = Some vi →
  st_volumes s !! uuid = None →
  String.prefix "ps_" uuid = true →
  vol_tree vi !! (uuid +:+ ".cmd") = None →
  vol_tree vi !! "etc" = Some EDir →
  vol_tree vi !! "etc/resolv.conf" = None →
  st_host s !! resolv_conf = Some (HFile c) →
  ∃ s3, run_script isolate 0 (storage_steps image_id uuid cmdline) s = (0, s3).
Proof.
  intros Himg Hfree Hps Hcmd Hetc Hres Hhost.
  assert (uuid ≠ "" ∧ uuid +:+ ".cmd" ≠ "etc" ∧ uuid +:+ ".cmd" ≠ "etc/resolv.conf")
    as (Hne & Hne1 & Hne2).
  { apply prefix_spec in Hps as [tail ->]. by rewrite !app_cons. }
  unfold storage_steps. cbn [run_script step exec_simple].
  rewrite (snapshot_ok _ _ _ _ Himg Hfree Hne).
  cbn [negb Z.eqb]. simpl_state.
  rewrite (resolve_volume _ (fresh_volume (vol_tree vi) s))
    by (simpl_state; apply lookup_insert_eq).
  simpl_state. rewrite Hcmd. cbn [negb Z.eqb].
  unfold update_tree at 1 2. simpl_state. rewrite Hhost.
  erewrite resolve_volume by (unfold update_tree; simpl_state; apply lookup_insert_eq).
  simpl_state. rewrite !lookup_insert_ne by done. rewrite Hetc, Hres.
  cbn [negb Z.eqb]. eauto.
Qed.


End Properties.

(** ** The status of the isolated process *)

(** Two isolated processes that leave the same tree and output, whatever
    their exit statuses, are indistinguishable through [run]. *)
Lemma run_script_for_ignores_status
    (p q : gmap string entry → string → gmap string entry * string * Z)
    (image_id uuid cmdline : string) (s : State) :
  (∀ t c, (p t c).1 = (q t c).1) →
  run_script p 0 (run_script_for image_id uuid cmdline) s
  = run_script q 0 (run_script_for image_id uuid cmdline) s.
Proof.
  intros Hpq. unfold run_script_for. cbn [run_script step exec_simple].
  destruct (btrfs_subvolume_snapshot image_id uuid s) as [rc1 s1].
  destruct (negb (rc1 =? 0)); [done|].
  destruct (match resolve uuid s1 with TVolume _ => _ | _ => _ end) as [rc2 s2].
  destruct (negb (rc2 =? 0)); [done|].
  destruct (match st_host s2 !! resolv_conf with Some _ => _ | None => _ end)
    as [rc3 s3].
  destruct (negb (rc3 =? 0)); [done|].
  destruct (resolve uuid s3) as [v| |]; [|done..].
  specialize (Hpq (vol_tree v) cmdline).
  destruct (p (vol_tree v) cmdline) as [[t1 o1] st1].
  destruct (q (vol_tree v) cmdline) as [[t2 o2] st2].
  cbn in Hpq. by injection Hpq as -> ->.
Qed.

Lemma run_ignores_status
    (p q : gmap string entry → string → gmap string entry * string * Z)
    (args : list string) (draws : list Z) (s : State) :
  (∀ t c, (p t c).1 = (q t c).1) →
  run p args draws s = run q args draws s.
Proof.
  intros Hpq. destruct args as [|image_id [|a rest]]; [by destruct draws..|].
  rewrite !run_first_free.
  destruct (negb (_docker_check image_id s)); [done|].
  destruct (decide (strip (join_space (a :: rest)) = "")); [done|].
  destruct (first_free "ps_" draws s) as [uuid|]; [|done].
  unfold _run_bash_command.
  by rewrite (run_script_for_ignores_status p q _ _ _ _ Hpq).
Qed.

(** ** Worked instances *)

(** C1 on the sample store: committing container [ps_42002] to image
    [img_42002]. *)
Lemma commit_copies_container_witness :
  (∃ v', st_volumes s_committed !! "img_42002" = Some v'
         ∧ vol_tree v' = vol_tree v_container)
  ∧ st_volumes s_committed !! "ps_42002" = Some v_container.
Proof.
  apply (commit_copies_container failing_process "ps_42002" "img_42002" []
           v_container v_image s_pair s_committed);
    vm_compute; reflexivity.
Defined.

(** C3 on the sample store. *)
Lemma commit_allocates_no_id_witness :
  dom (st_volumes s_committed) = dom (st_volumes s_pair)
  ∧ is_Some (st_volumes s_pair !! "img_42002")
  ∧ (∃ v', st_volumes s_committed !! "img_42002" = Some v'
           ∧ vol_id v' = st_next_id s_pair)
  ∧ (∀ k, k ≠ "img_42002" → st_volumes s_committed !! k = st_volumes s_pair !! k).
Proof.
  apply (commit_allocates_no_id failing_process "ps_42002" "img_42002" []
           s_pair s_committed).
  vm_compute; reflexivity.
Defined.

(** C4 on the sample store: committing an image to itself.  The delete
    succeeds, the snapshot finds its source gone, and the image is lost. *)
Lemma commit_delete_then_snapshot_witness :
  commit failing_process ["img_42002"; "img_42002"] s_image = (1, s_deleted)
  ∧ is_Some (st_volumes s_image !! "img_42002")
  ∧ st_volumes s_deleted !! "img_42002" = None.
Proof.
  apply (commit_delete_then_snapshot failing_process "img_42002" "img_42002" []
           s_image s_deleted s_deleted 1);
    try (vm_compute; reflexivity).
  lia.
Defined.

(** C2 at a failing input.  In the store with image [img_42002] and
    container [ps_42002], no volume is named [ps_4200]; yet
    [commit ps_4200 img_42002] passes both existence checks, deletes the
    image, fails at the snapshot and returns 1 with the image gone. *)
Lemma commit_missing_container_destroys_image :
  st_volumes s_pair !! "ps_4200" = None
  ∧ st_volumes s_pair !! "img_42002" = Some v_image
  ∧ _docker_check "ps_4200" s_pair = true
  ∧ ∃ s', commit failing_process ["ps_4200"; "img_42002"] s_pair = (1, s')
          ∧ s' ≠ s_pair
          ∧ st_volumes s' !! "img_42002" = None.
Proof.
  split; [vm_compute; reflexivity|]. split; [vm_compute; reflexivity|].
  split; [vm_compute; reflexivity|].
  eexists. split; [vm_compute; reflexivity|]. split.
  - intros Heq. apply (f_equal (λ s, st_volumes s !! "img_42002")) in Heq.
    vm_compute in Heq. discriminate.
  - vm_compute; reflexivity.
Qed.

(** C7 at a failing input.  No volume is named by the empty string, yet
    [run "" wget] passes the image check (the empty string occurs in every
    listing), snapshots the storage root into a new container volume and
    writes its command file, before failing with status 1 at the copy of
    [resolv.conf]. *)
Lemma run_missing_image_creates_volume :
  st_volumes s_image !! "" = None
  ∧ _docker_check "" s_image = true
  ∧ st_volumes s_image !! "ps_42002" = None
  ∧ ∃ s' v, run failing_process [""; "wget"] [0] s_image = Some (1, s')
            ∧ st_volumes s' !! "ps_42002" = Some v
            ∧ vol_tree v !! "ps_42002.cmd" = Some (EFile ("wget" +:+ nl)).
Proof.
  split; [vm_compute; reflexivity|]. split; [vm_compute; reflexivity|].
  split; [vm_compute; reflexivity|].
  eexists. eexists. split; [vm_compute; reflexivity|].
  split; vm_compute; reflexivity.
Qed.





(** C10 on a store whose only volume is [img_420021]: the name
    [img_42002], a proper prefix of it, passes for existing. *)
Lemma substring_passes_existence_check_witness :
  _docker_check "img_42002" s_long = true
  ∧ (∀ rest, rm failing_process ("img_42002" :: rest) s_long
             = _run_bash_command failing_process (rm_script "img_42002") false s_long)
  ∧ (∀ other rest, _docker_check other s_long = true →
       commit failing_process ("img_42002" :: other :: rest) s_long
       = _run_bash_command failing_process (commit_script "img_42002" other) false s_long
       ∧ commit failing_process (other :: "img_42002" :: rest) s_long
         = _run_bash_command failing_process (commit_script other "img_42002") false s_long)
  ∧ (∀ a rest draws, strip (join_space (a :: rest)) ≠ "" →
       run failing_process ("img_42002" :: a :: rest) draws s_long
       = match first_free "ps_" draws s_long with
         | None => None
         | Some uuid =>
             Some (_run_bash_command failing_process
                     (run_script_for "img_42002" uuid (join_space (a :: rest))) true s_long)
         end)
  ∧ (∀ r draws args, "img_42002" = _generate_uuid "img_" r →
       init failing_process args (r :: draws) s_long = init failing_process args draws s_long)
  ∧ (∀ r draws args, "img_42002" = _generate_uuid "ps_" r →
       run failing_process args (r :: draws) s_long = run failing_process args draws s_long).
Proof.
  apply (substring_passes_existence_check failing_process
           "img_42002" "img_420021" (Volume 256 8 ∅) s_long);
    vm_compute; reflexivity.
Defined.

(** C8 on the sample store, where [img_42002] is taken: the first two
    draws both give that ID and are redrawn, the third gives
    [img_42003], which is free and is issued. *)
Lemma issued_id_is_free_witness :
  (∃ s', init failing_process ["/base"] [0; 253; 1] s_image
         = Some (Some "img_42003", 0, s'))
  ∧ String.prefix "img_" "img_42003" = true
  ∧ st_volumes s_image !! "img_42003" = None.
Proof.
  destruct (issued_id_is_free failing_process "/base" "img_42002" "wget" [] []
              [0; 253; 1] s_image) as (Hinit & _ & Hfree).
  specialize (Hfree "img_").
  assert (first_free "img_" [0; 253; 1] s_image = Some "img_42003") as Hff
    by (vm_compute; reflexivity).
  rewrite Hff in Hfree. destruct Hfree as (Hprefix & _ & _ & Hnone & _).
  split; [|by split].
  rewrite Hinit. vm_compute. by eexists.
Defined.

(** C9 on the sample store: [ps_4200] names no volume and is rejected
    with nothing changed; [ps_42002] is removed. *)
Lemma rm_removes_or_rejects_witness :
  rm failing_process ["ps_4200"] s_pair = (1, s_pair)
  ∧ ∃ s', rm failing_process ["ps_42002"] s_pair = (0, s')
      ∧ st_volumes s' = delete "ps_42002" (st_volumes s_pair)
      ∧ st_host s' = st_host s_pair
      ∧ (is_Some (_list_images s_pair) → is_Some (_list_images s'))
      ∧ (is_Some (_list_containers s_pair) → is_Some (_list_containers s'))
      ∧ (∀ rows, _list_images s' = Some rows → "ps_42002" ∉ rows.*1)
      ∧ (∀ rows, _list_containers s' = Some rows → "ps_42002" ∉ rows.*1).
Proof.
  split.
  - apply (proj1 (rm_removes_or_rejects failing_process "ps_4200" [] s_pair)).
    vm_compute; reflexivity.
  - apply (proj2 (rm_removes_or_rejects failing_process "ps_42002" [] s_pair)
             v_container).
    vm_compute; reflexivity.
Defined.

(** * Further properties of the program *)

(** ** What a script can touch *)

Lemma differs_at_refl (name : string) (s : State) : differs_at name s s.
Proof. by split. Qed.

Lemma differs_at_trans (name : string) (s1 s2 s3 : State) :
  differs_at name s1 s2 → differs_at name s2 s3 → differs_at name s1 s3.
Proof.
  intros [Hh1 Hv1] [Hh2 Hv2]. split; [congruence|].
  intros k Hk. by rewrite Hv2, Hv1.
Qed.

Lemma differs_at_insert (name : string) (v : volume) (s : State) :
  differs_at name s (set_volumes (insert name v) s).
Proof. split; [done|]. intros k Hk. simpl_state. by rewrite lookup_insert_ne. Qed.

Lemma differs_at_bump (name : string) (s s' : State) :
  differs_at name s s' → differs_at name s (bump s').
Proof. done. Qed.

Lemma differs_at_delete (name : string) (s : State) :
  differs_at name s (set_volumes (delete name) s).
Proof. split; [done|]. intros k Hk. simpl_state. by rewrite lookup_delete_ne. Qed.

Section Frames.

Variable isolate : gmap string entry → string → gmap string entry * string * Z.

(** A simple command changes nothing but the volume it names. *)
Lemma exec_simple_differs (c : simple) (name : string) (s s' : State) (rc : Z) :
  (∀ m, touched c = Some m → m = name) →
  exec_simple isolate c s = (rc, s') →
  differs_at name s s'.
Proof.
  intros Hname.
  destruct c; cbn [touched] in Hname; try specialize (Hname _ eq_refl); subst;
    cbn [exec_simple];
    unfold btrfs_subvolume_create, btrfs_subvolume_delete, btrfs_subvolume_snapshot,
      update_tree;
    repeat case_match; intros [= <- <-];
    auto using differs_at_refl, differs_at_insert, differs_at_delete, differs_at_bump.
Qed.

(** A simple command other than a delete removes no volume. *)
Lemma exec_simple_keeps (c : simple) (k : string) (s s' : State) (rc : Z) :
  removes c = false →
  exec_simple isolate c s = (rc, s') →
  is_Some (st_volumes s !! k) → is_Some (st_volumes s' !! k).
Proof.
  intros Hrem Hexec Hk.
  destruct c; try discriminate Hrem; cbn [exec_simple] in Hexec;
    unfold btrfs_subvolume_create, btrfs_subvolume_snapshot, update_tree in Hexec;
    repeat case_match; injection Hexec as <- <-; simpl_state; try done;
    rewrite lookup_insert;
    match goal with |- context [decide (?a = k)] => destruct (decide (a = k)) end;
    eauto.
Qed.

Lemma step_differs (c : command) (name : string) (s s' : State) (rc : Z) (fatal : bool) :
  (∀ m, touched (body c) = Some m → m = name) →
  step isolate c s = (rc, fatal, s') →
  differs_at name s s'.
Proof.
  intros Hname. destruct c as [x|t x|x]; cbn [step body] in *.
  - destruct (exec_simple isolate x s) as [r s1] eqn:Hx. intros [= <- <- <-].
    by eapply exec_simple_differs.
  - destruct (eval_test t s).
    + destruct (exec_simple isolate x s) as [r s1] eqn:Hx. intros [= <- <- <-].
      by eapply exec_simple_differs.
    + intros [= <- <- <-]. apply differs_at_refl.
  - destruct (exec_simple isolate x s) as [r s1] eqn:Hx. intros [= <- <- <-].
    by eapply exec_simple_differs.
Qed.

Lemma step_keeps (c : command) (k : string) (s s' : State) (rc : Z) (fatal : bool) :
  removes (body c) = false →
  step isolate c s = (rc, fatal, s') →
  is_Some (st_volumes s !! k) → is_Some (st_volumes s' !! k).
Proof.
  intros Hrem. destruct c as [x|t x|x]; cbn [step body] in *.
  - destruct (exec_simple isolate x s) as [r s1] eqn:Hx. intros [= <- <- <-].
    by eapply exec_simple_keeps.
  - destruct (eval_test t s).
    + destruct (exec_simple isolate x s) as [r s1] eqn:Hx. intros [= <- <- <-].
      by eapply exec_simple_keeps.
    + by intros [= <- <- <-].
  - destruct (exec_simple isolate x s) as [r s1] eqn:Hx. intros [= <- <- <-].
    by eapply exec_simple_keeps.
Qed.

(** A script whose commands all name the same volume changes nothing
    else. *)
Lemma run_script_differs (cs : list command) (name : string) (s s' : State) (rc rc' : Z) :
  Forall (λ c, ∀ m, touched (body c) = Some m → m = name) cs →
  run_script isolate rc cs s = (rc', s') →
  differs_at name s s'.
Proof.
  intros Hall. revert rc s.
  induction Hall as [|c cs Hc _ IH]; intros rc s; cbn [run_script].
  - intros [= _ <-]. apply differs_at_refl.
  - destruct (step isolate c s) as [[r fatal] s1] eqn:Hstep.
    pose proof (step_differs _ _ _ _ _ _ Hc Hstep) as Hd.
    destruct fatal; [by intros [= _ <-]|].
    intros Hrest. eapply differs_at_trans; [done | by eapply IH].
Qed.

Lemma run_script_cons (c : command) (cs : list command) (s : State) (rc : Z) :
  run_script isolate rc (c :: cs) s
  = let '(rc', fatal, s') := step isolate c s in
    if fatal then (rc', s') else run_script isolate rc' cs s'.
Proof. reflexivity. Qed.

Lemma run_script_keeps (cs : list command) (k : string) (s s' : State) (rc rc' : Z) :
  Forall (λ c, removes (body c) = false) cs →
  run_script isolate rc cs s = (rc', s') →
  is_Some (st_volumes s !! k) → is_Some (st_volumes s' !! k).
Proof.
  intros Hall. revert rc s.
  induction Hall as [|c cs Hc _ IH]; intros rc s; cbn [run_script].
  - by intros [= _ <-].
  - destruct (step isolate c s) as [[r fatal] s1] eqn:Hstep.
    intros Hrest Hk. pose proof (step_keeps _ _ _ _ _ _ Hc Hstep Hk) as Hk1.
    destruct fatal; [by injection Hrest as _ <-|]. by eapply IH.
Qed.

Lemma _run_bash_command_state (cs : list command) (realtime : bool) (s s' : State)
    (rc : Z) :
  _run_bash_command isolate cs realtime s = (rc, s') →
  ∃ rc', run_script isolate 0 cs s = (rc', s') ∧ rc = rc'.
Proof.
  unfold _run_bash_command.
  destruct (run_script isolate 0 cs s) as [r s1].
  destruct realtime; [|destruct (r =? 0) eqn:Hr; cbn [negb]];
    intros [= <- <-]; eexists; split; try done.
  by apply Z.eqb_eq in Hr.
Qed.

(** ** Commit, beyond the claims *)

(** X1. [commit] with fewer than two arguments returns 1 and changes
    nothing; with two or more, however it ends, the host and every volume
    but the one named by the image argument are left as they were. *)
Theorem commit_touches_only_the_image (args : list string) (s : State) :
  match args with
  | _ :: image_id :: _ => differs_at image_id s (commit isolate args s).2
  | _ => commit isolate args s = (1, s)
  end.
Proof.
  destruct args as [|container_id [|image_id rest]]; [done..|].
  unfold commit.
  destruct (_docker_check container_id s); cbn [negb]; [|apply differs_at_refl].
  destruct (_docker_check image_id s); cbn [negb]; [|apply differs_at_refl].
  destruct (_run_bash_command isolate (commit_script container_id image_id) false s)
    as [rc s'] eqn:Hrun.
  apply _run_bash_command_state in Hrun as (rc' & Hrun & _).
  eapply run_script_differs; [|done].
  unfold commit_script. repeat constructor; cbn; congruence.
Qed.

(** X2. [commit] succeeds whenever its two arguments name two different
    volumes: it returns 0, the image's name is bound to a new subvolume
    with the container's tree, and nothing else changes.  The two
    prefixes play no part: any volume can be committed to any other. *)
Theorem commit_succeeds_on_two_volumes (container_id image_id : string)
    (rest : list string) (vc vi : volume) (s : State) :
  st_volumes s !! container_id = Some vc →
  st_volumes s !! image_id = Some vi →
  container_id ≠ image_id →
  image_id ≠ "" →
  ∃ s', commit isolate (container_id :: image_id :: rest) s = (0, s')
    ∧ st_volumes s'
      = <[image_id := Volume (st_next_id s) (N.succ (st_gen s)) (vol_tree vc)]>
          (st_volumes s)
    ∧ st_host s' = st_host s
    ∧ st_next_id s' = N.succ (st_next_id s).
Proof.
  intros Hc Hi Hdiff Hne. eexists. split.
  - rewrite commit_steps by (by eapply _docker_check_present).
    rewrite (delete_ok _ _ _ Hi). cbn [Z.eqb].
    apply snapshot_ok; simpl_state;
      [by rewrite lookup_delete_ne | apply lookup_delete_eq | done].
  - simpl_state. by rewrite insert_delete_eq.
Qed.

(** X3. Committing a volume to itself destroys it: the call returns 1 and
    the only change is that the volume is gone. *)
Theorem commit_to_itself_destroys (id : string) (rest : list string) (v : volume)
    (s : State) :
  st_volumes s !! id = Some v →
  commit isolate (id :: id :: rest) s = (1, set_volumes (delete id) s).
Proof.
  intros Hv.
  rewrite commit_steps by (by eapply _docker_check_present).
  rewrite (delete_ok _ _ _ Hv). cbn [Z.eqb].
  unfold btrfs_subvolume_snapshot, resolve. simpl_state.
  rewrite lookup_delete_eq. by destruct (decide (id = "")).
Qed.

(** ** Removal, beyond the claims *)

Lemma rm_absent (id : string) (rest : list string) (s : State) :
  st_volumes s !! id = None → rm isolate (id :: rest) s = (1, s).
Proof.
  intros Hnone. unfold rm. destruct (_docker_check id s); [|done].
  cbn [negb]. unfold _run_bash_command, rm_script. cbn [run_script step exec_simple].
  unfold btrfs_subvolume_delete, resolve. rewrite Hnone.
  by destruct (decide (id = "")).
Qed.

Lemma rm_present (id : string) (rest : list string) (v : volume) (s : State) :
  st_volumes s !! id = Some v →
  rm isolate (id :: rest) s = (0, set_volumes (delete id) s).
Proof.
  intros Hv. unfold rm. rewrite (_docker_check_present _ _ _ Hv). cbn [negb].
  unfold _run_bash_command, rm_script. cbn [run_script step exec_simple].
  by rewrite (delete_ok _ _ _ Hv).
Qed.

(** X4. [rm] without an argument returns 1 and changes nothing.  With
    one, it returns 0 exactly when the name is a volume and 1 otherwise;
    either way no volume has that name afterwards, nothing else has
    changed, and a second [rm] of the same name returns 1 and changes
    nothing. *)
Theorem rm_is_idempotent (args : list string) (s : State) :
  match args with
  | [] => rm isolate args s = (1, s)
  | id :: _ =>
      differs_at id s (rm isolate args s).2
      ∧ st_volumes (rm isolate args s).2 !! id = None
      ∧ ((rm isolate args s).1 = 0 ↔ is_Some (st_volumes s !! id))
      ∧ ((rm isolate args s).1 = 0 ∨ (rm isolate args s).1 = 1)
      ∧ rm isolate args (rm isolate args s).2 = (1, (rm isolate args s).2)
  end.
Proof.
  destruct args as [|id rest]; [done|].
  destruct (st_volumes s !! id) as [v|] eqn:Hv.
  - rewrite (rm_present _ _ _ _ Hv). cbn [fst snd].
    assert (st_volumes (set_volumes (delete id) s) !! id = None) as Hgone
      by (simpl_state; apply lookup_delete_eq).
    split; [apply differs_at_delete|]. split; [done|].
    split; [by split; eauto|]. split; [by left|].
    by apply rm_absent.
  - rewrite (rm_absent _ _ _ Hv). cbn [fst snd].
    split; [apply differs_at_refl|]. split; [done|].
    split; [split; [done | by intros [? ?]]|]. split; [by right|].
    by apply rm_absent.
Qed.

(** ** Creation, beyond the claims *)



(** The script of [run] on a free ID either fails at the snapshot and
    leaves the state alone, or leaves a volume under the ID. *)
Lemma run_script_for_outcome (image_id uuid cmdline : string) (s s' : State) (rc : Z) :
  run_script isolate 0 (run_script_for image_id uuid cmdline) s = (rc, s') →
  differs_at uuid s s' ∧ (s' = s ∨ is_Some (st_volumes s' !! uuid)).
Proof.
  intros Hrun. split.
  { eapply run_script_differs; [|done].
    unfold run_script_for. repeat constructor; cbn; congruence. }
  unfold run_script_for in Hrun. rewrite run_script_cons in Hrun.
  cbn [step exec_simple] in Hrun.
  destruct (btrfs_subvolume_snapshot image_id uuid s) as [r s1] eqn:Hsnap.
  apply snapshot_inv in Hsnap as [(-> & t & _ & _ & _ & ->) | (-> & ->)].
  - right. cbn [Z.eqb negb] in Hrun.
    eapply run_script_keeps; [|done|simpl_state; rewrite lookup_insert_eq; eauto].
    repeat constructor.
  - left. cbn [Z.eqb negb] in Hrun. by injection Hrun as _ <-.
Qed.

(** The script of [init] on a free ID always leaves a volume under it. *)
Lemma init_script_outcome (directory uuid : string) (s s' : State) (rc : Z) :
  st_volumes s !! uuid = None → uuid ≠ "" →
  run_script isolate 0 (init_script directory uuid) s = (rc, s') →
  differs_at uuid s s' ∧ is_Some (st_volumes s' !! uuid).
Proof.
  intros Hfree Hne Hrun. split.
  { eapply run_script_differs; [|done].
    unfold init_script. repeat constructor; cbn; congruence. }
  unfold init_script in Hrun. rewrite run_script_cons in Hrun.
  cbn [step exec_simple] in Hrun.
  rewrite (create_ok _ _ Hfree Hne) in Hrun. cbn [Z.eqb negb] in Hrun.
  eapply run_script_keeps; [|done|simpl_state; rewrite lookup_insert_eq; eauto].
  repeat constructor.
Qed.



(** X7. When the directory exists but the glob matches nothing in it (it
    is empty, holds only dot entries, or is a regular file), [init]
    returns no ID and code 1, and leaves behind the empty volume it had
    already created under the drawn ID. *)
Theorem init_without_entries_leaves_empty_volume (directory uuid : string)
    (rest : list string) (node : hnode) (draws : list Z) (s : State) :
  st_host s !! directory = Some node →
  glob_empty node →
  first_free "img_" draws s = Some uuid →
  init isolate (directory :: rest) draws s
  = Some (None, 1,
          MkState (<[uuid := Volume (st_next_id s) (N.succ (st_gen s)) ∅]> (st_volumes s))
                  (st_host s) (N.succ (st_next_id s)) (N.succ (st_gen s))).
Proof.
  intros Hdir Hglob Hff.
  destruct (first_free_unused _ _ _ _ Hff) as [Hfree [r Hr]].
  assert (uuid ≠ "") as Hne by (rewrite Hr; apply _generate_uuid_nonempty).
  rewrite init_first_free. unfold _directory_exists. rewrite Hdir.
  rewrite bool_decide_eq_true_2 by eauto. cbn [negb]. rewrite Hff.
  unfold _run_bash_command, init_script. cbn [run_script step exec_simple].
  rewrite (create_ok _ _ Hfree Hne). cbn [negb Z.eqb]. simpl_state. rewrite Hdir.
  destruct node as [c|t]; [done|]. cbn in Hglob.
  rewrite (resolve_volume uuid (fresh_volume ∅ s))
    by (simpl_state; apply lookup_insert_eq).
  by rewrite decide_True.
Qed.


(** ** Containers, beyond the claims *)



(** A script of [run] that ends with status 0 went through its storage
    part and then through the isolated process. *)
Lemma run_script_for_success_inv (image_id uuid cmdline : string) (s s1 : State) :
  run_script isolate 0 (run_script_for image_id uuid cmdline) s = (0, s1) →
  ∃ s3, run_script isolate 0 (storage_steps image_id uuid cmdline) s = (0, s3)
     ∧ s1 = (exec_simple isolate (Isolate uuid cmdline) s3).2.
Proof.
  unfold storage_steps, run_script_for. cbn [run_script step].
  destruct (exec_simple isolate (BtrfsSnapshot image_id uuid) s) as [rc1 s2].
  destruct (rc1 =? 0) eqn:H1; cbn [negb];
    [|intros [= -> _]; by rewrite Z.eqb_refl in H1].
  destruct (exec_simple isolate (EchoTo cmdline uuid (uuid +:+ ".cmd")) s2) as [rc2 s3].
  destruct (rc2 =? 0) eqn:H2; cbn [negb];
    [|intros [= -> _]; by rewrite Z.eqb_refl in H2].
  destruct (exec_simple isolate (CpResolv uuid) s3) as [rc3 s4].
  destruct (rc3 =? 0) eqn:H3; cbn [negb];
    [|intros [= -> _]; by rewrite Z.eqb_refl in H3].
  apply Z.eqb_eq in H3 as ->.
  destruct (exec_simple isolate (Isolate uuid cmdline) s4) as [rc4 s5] eqn:H4.
  intros [= <-]. exists s4. by rewrite H4.
Qed.

(** What [run] has done when it returns 0. *)
Lemma run_success_inv (image_id a : string) (rest : list string) (draws : list Z)
    (s s1 : State) :
  run isolate (image_id :: a :: rest) draws s = Some (0, s1) →
  ∃ uuid vc out,
    first_free "ps_" draws s = Some uuid
    ∧ st_volumes s !! uuid = None
    ∧ differs_at uuid s s1
    ∧ st_volumes s1 !! uuid = Some vc
    ∧ vol_tree vc !! (uuid +:+ ".log") = Some (EFile out).
Proof.
  rewrite run_first_free. generalize (join_space (a :: rest)). intros cmdline.
  destruct (negb (_docker_check image_id s)); [done|].
  destruct (decide (strip cmdline = "")); [done|].
  destruct (first_free "ps_" draws s) as [uuid|] eqn:Hff; [|done].
  destruct (first_free_unused _ _ _ _ Hff) as [Hfree _].
  intros [= Hrun]. apply _run_bash_command_state in Hrun as (rc' & Hrun & <-).
  pose proof (run_script_for_outcome _ _ _ _ _ _ Hrun) as [Hd _].
  apply run_script_for_success_inv in Hrun as (s3 & Hstore & Hs1).
  destruct (run_script_after_storage isolate _ _ _ _ _ Hstore) as [[v3 Hv3] _].
  cbn [exec_simple] in Hs1. rewrite (resolve_volume _ _ _ Hv3) in Hs1.
  destruct (isolate (vol_tree v3) cmdline) as [[t out] status].
  cbn [snd] in Hs1. subst s1.
  exists uuid. eexists. exists out.
  split; [done|]. split; [done|]. split; [done|].
  unfold update_tree. simpl_state. split; [apply lookup_insert_eq|].
  simpl_state. apply lookup_insert_eq.
Qed.

(** X10. A log travels with a commit.  After [run] has returned 0 from
    an existing image, committing the new container to that image
    succeeds; the image then has the container's tree, which holds the
    container's log file, and the container is unchanged. *)
Theorem commit_after_run_carries_the_log (image_id a : string) (rest : list string)
    (draws : list Z) (vi : volume) (s s1 : State) :
  st_volumes s !! image_id = Some vi →
  image_id ≠ "" →
  run isolate (image_id :: a :: rest) draws s = Some (0, s1) →
  ∃ uuid vc out s2 v2,
    first_free "ps_" draws s = Some uuid
    ∧ st_volumes s1 !! uuid = Some vc
    ∧ commit isolate [uuid; image_id] s1 = (0, s2)
    ∧ st_volumes s2 !! image_id = Some v2
    ∧ vol_tree v2 = vol_tree vc
    ∧ vol_tree v2 !! (uuid +:+ ".log") = Some (EFile out)
    ∧ st_volumes s2 !! uuid = Some vc.
Proof.
  intros Himg Hne Hrun.
  apply run_success_inv in Hrun as (uuid & vc & out & Hff & Hfree & Hd & Hvc & Hlog).
  assert (uuid ≠ image_id) as Hdiff by (intros ->; congruence).
  assert (st_volumes s1 !! image_id = Some vi) as Himg1
    by (by rewrite (proj2 Hd)).
  exists uuid, vc, out. eexists. eexists. split; [done|]. split; [done|]. split.
  { rewrite commit_steps by (by eapply _docker_check_present).
    rewrite (delete_ok _ _ _ Himg1). cbn [Z.eqb].
    apply snapshot_ok; simpl_state;
      [by rewrite lookup_delete_ne | apply lookup_delete_eq | done]. }
  simpl_state. rewrite lookup_insert_eq, lookup_insert_ne, lookup_delete_ne by done.
  by repeat split.
Qed.

(** X11. A container outlives its image.  After [run] has returned 0
    from an existing image, [rm] of the image returns 0 and removes it,
    and the container's volume is exactly as [run] left it. *)
Theorem container_outlives_its_image (image_id a : string) (rest : list string)
    (draws : list Z) (vi : volume) (s s1 : State) :
  st_volumes s !! image_id = Some vi →
  run isolate (image_id :: a :: rest) draws s = Some (0, s1) →
  ∃ uuid vc s2,
    first_free "ps_" draws s = Some uuid
    ∧ st_volumes s1 !! uuid = Some vc
    ∧ rm isolate [image_id] s1 = (0, s2)
    ∧ st_volumes s2 !! image_id = None
    ∧ st_volumes s2 !! uuid = Some vc.
Proof.
  intros Himg Hrun.
  apply run_success_inv in Hrun as (uuid & vc & out & Hff & Hfree & Hd & Hvc & _).
  assert (uuid ≠ image_id) as Hdiff by (intros ->; congruence).
  assert (st_volumes s1 !! image_id = Some vi) as Himg1
    by (by rewrite (proj2 Hd)).
  exists uuid, vc. eexists. split; [done|]. split; [done|].
  split; [by eapply rm_present|]. simpl_state.
  by rewrite lookup_delete_eq, lookup_delete_ne.
Qed.

(** What [init] has done when it returns an ID. *)
Lemma init_success_inv (directory uuid : string) (rest : list string) (draws : list Z)
    (rc : Z) (s s1 : State) :
  init isolate (directory :: rest) draws s = Some (Some uuid, rc, s1) →
  st_volumes s !! uuid = None
  ∧ differs_at uuid s s1
  ∧ is_Some (st_volumes s1 !! uuid).
Proof.
  rewrite init_first_free.
  destruct (negb (_directory_exists directory s)); [done|].
  destruct (first_free "img_" draws s) as [u|] eqn:Hff; [|done].
  destruct (first_free_unused _ _ _ _ Hff) as [Hfree [r Hr]].
  assert (u ≠ "") as Hne by (rewrite Hr; apply _generate_uuid_nonempty).
  destruct (_run_bash_command isolate _ false s) as [rc' s'] eqn:Hrun.
  apply _run_bash_command_state in Hrun as (rc'' & Hrun & ->).
  apply (init_script_outcome _ _ _ _ _ Hfree Hne) in Hrun as [Hd Hsome].
  destruct (rc'' =? 0); intros [= <- _ <-]. done.
Qed.

(** X12. [rm] undoes [init]: removing the image that [init] has just
    returned succeeds and gives back the volumes and the host there were
    before the [init]. *)
Theorem rm_undoes_init (directory uuid : string) (rest : list string) (draws : list Z)
    (rc : Z) (s s1 : State) :
  init isolate (directory :: rest) draws s = Some (Some uuid, rc, s1) →
  ∃ s2, rm isolate [uuid] s1 = (0, s2)
    ∧ st_volumes s2 = st_volumes s
    ∧ st_host s2 = st_host s.
Proof.
  intros Hinit.
  apply init_success_inv in Hinit as (Hfree & [Hhost Hd] & [v Hv]).
  eexists. split; [by eapply rm_present|]. simpl_state. split; [|done].
  apply map_eq. intros k. destruct (decide (k = uuid)) as [->|Hk].
  - by rewrite lookup_delete_eq.
  - by rewrite lookup_delete_ne, Hd.
Qed.

(** ** The ID space *)

Lemma randint_id (r : Z) : randint 42002 42254 r = 42002 + Z.of_nat (Z.to_nat (r mod 253)).
Proof.
  unfold randint. replace (42254 - 42002 + 1) with 253 by lia.
  pose proof (Z.mod_pos_bound r 253). lia.
Qed.

Lemma first_free_full (prefix : string) (draws : list Z) (s : State) :
  namespace_full prefix s = true → first_free prefix draws s = None.
Proof.
  intros Hfull. induction draws as [|r draws IH]; [done|].
  cbn [first_free].
  assert (is_Some (st_volumes s !! _generate_uuid prefix r)) as [v Hv].
  { unfold namespace_full in Hfull. rewrite forallb_forall in Hfull.
    unfold _generate_uuid. rewrite randint_id.
    assert (In (Z.to_nat (r mod 253)) (seq 0 253)) as Hin
      by (apply in_seq; pose proof (Z.mod_pos_bound r 253); lia).
    apply Hfull in Hin. by apply bool_decide_eq_true in Hin. }
  by rewrite (_docker_check_present _ _ _ Hv).
Qed.

(** X13. When all 253 IDs of the image namespace name volumes, [init]
    on an existing directory never settles on an ID: whatever the draws,
    and however many, every one collides and is redrawn.  [run] does the
    same when the container namespace is full. *)
Theorem full_namespace_never_issues (directory image_id a : string)
    (rest others : list string) (draws : list Z) (s : State) :
  (namespace_full "img_" s = true →
   _directory_exists directory s = true →
   init isolate (directory :: rest) draws s = None)
  ∧ (namespace_full "ps_" s = true →
     _docker_check image_id s = true →
     strip (join_space (a :: others)) ≠ "" →
     run isolate (image_id :: a :: others) draws s = None).
Proof.
  split.
  - intros Hfull Hdir. by rewrite init_first_free, Hdir, first_free_full.
  - intros Hfull Himg Hcmd.
    rewrite run_first_free, Himg, decide_False, first_free_full; done.
Qed.

Lemma string_app_inj (p a b : string) : p +:+ a = p +:+ b → a = b.
Proof.
  induction p as [|c p IH]; [done|]. rewrite !app_cons. intros [= H]. by apply IH.
Qed.

(** X14. Two draws give the same ID exactly when they agree modulo 253:
    each namespace has 253 IDs and no more. *)
Theorem ids_coincide_modulo_253 (prefix : string) (r1 r2 : Z) :
  _generate_uuid prefix r1 = _generate_uuid prefix r2 ↔ r1 mod 253 = r2 mod 253.
Proof.
  unfold _generate_uuid, randint. replace (42254 - 42002 + 1) with 253 by lia.
  split.
  - intros Heq. apply string_app_inj, (inj pretty) in Heq. lia.
  - by intros ->.
Qed.

End Frames.

(** ** Listings, beyond the claims *)







(** ** Tables *)

Lemma join_cons_cons (sep x y : string) (rest : list string) :
  join sep (x :: y :: rest) = x +:+ sep +:+ join sep (y :: rest).
Proof. reflexivity. Qed.

Lemma join_rows (h : string) (rows : list (string * string)) :
  join nl (h :: map (join tab2) (map (λ r : string * string, [r.1; r.2]) rows))
  = h +:+ table_lines rows.
Proof.
  revert h. induction rows as [|r rows IH]; intros h.
  - cbn. by rewrite app_nil_r'.
  - cbn [map]. rewrite join_cons_cons, IH. cbn [table_lines join].
    by rewrite !string_app_assoc.
Qed.

Lemma table_lines_mentions (rows : list (string * string)) (r : string * string) :
  r ∈ rows →
  str_in r.1 (table_lines rows) = true ∧ str_in r.2 (table_lines rows) = true.
Proof.
  induction rows as [|r' rows IH]; [by intros ?%not_elem_of_nil|].
  intros [<- | Hin]%elem_of_cons; cbn [table_lines]; rewrite !str_in_spec.
  - split.
    + by exists nl, (tab2 +:+ r.2 +:+ table_lines rows).
    + exists (nl +:+ r.1 +:+ tab2), (table_lines rows). by rewrite !string_app_assoc.
  - destruct (IH Hin) as [(l1 & t1 & H1)%str_in_spec (l2 & t2 & H2)%str_in_spec].
    split.
    + exists (nl +:+ r'.1 +:+ tab2 +:+ r'.2 +:+ l1), t1.
      rewrite H1 at 1. by rewrite !string_app_assoc.
    + exists (nl +:+ r'.1 +:+ tab2 +:+ r'.2 +:+ l2), t2.
      rewrite H2 at 1. by rewrite !string_app_assoc.
Qed.

(** X17. [images] and [ps] ignore their arguments and, when the listing
    is produced, return 0 and print the header followed by one line
    [id, two tabs, source or command] per listed row, in the order of the
    listing; the special case for an empty listing prints the same text
    as the general one.  Every listed ID and every listed source or
    command occurs in the printed text. *)
Theorem images_and_ps_print_every_row (args : list string) (s : State) :
  images args s
  = match _list_images s with
    | None => None
    | Some rows => Some ("IMAGE_ID" +:+ tab2 +:+ "SOURCE" +:+ table_lines rows, 0)
    end
  ∧ ps args s
    = match _list_containers s with
      | None => None
      | Some rows => Some ("CONTAINER_ID" +:+ tab2 +:+ "COMMAND" +:+ table_lines rows, 0)
      end
  ∧ ∀ (header : string) (rows : list (string * string)) (r : string * string),
      r ∈ rows →
      str_in r.1 (header +:+ table_lines rows) = true
      ∧ str_in r.2 (header +:+ table_lines rows) = true.
Proof.
  split; [|split].
  - unfold images. destruct (_list_images s) as [[|r rows]|]; [|f_equal..|done].
    + cbn [table_lines]. by rewrite !app_nil_r'.
    + unfold _format_table_output. cbn [map].
      change ([r.1; r.2] :: map (λ img : string * string, [img.1; img.2]) rows)
        with (map (λ img : string * string, [img.1; img.2]) (r :: rows)).
      f_equal. rewrite <- (join_rows _ (r :: rows)). by rewrite ?string_app_assoc.
  - unfold ps. destruct (_list_containers s) as [[|r rows]|]; [|f_equal..|done].
    + cbn [table_lines]. by rewrite !app_nil_r'.
    + unfold _format_table_output. cbn [map].
      change ([r.1; r.2] :: map (λ c : string * string, [c.1; c.2]) rows)
        with (map (λ c : string * string, [c.1; c.2]) (r :: rows)).
      f_equal. rewrite <- (join_rows _ (r :: rows)). by rewrite ?string_app_assoc.
  - intros header rows r Hin.
    destruct (table_lines_mentions rows r Hin)
      as [(l1 & t1 & H1)%str_in_spec (l2 & t2 & H2)%str_in_spec].
    rewrite !str_in_spec. split.
    + exists (header +:+ l1), t1. rewrite H1 at 1. by rewrite ?string_app_assoc.
    + exists (header +:+ l2), t2. rewrite H2 at 1. by rewrite ?string_app_assoc.
Qed.

(** ** Worked instances of the further properties *)

(** X2 on the sample store, with the roles exchanged: the image is
    committed to the container, which is overwritten. *)
Lemma commit_succeeds_on_two_volumes_witness :
  ∃ s', commit failing_process ["img_42002"; "ps_42002"] s_pair = (0, s')
    ∧ st_volumes s'
      = <["ps_42002" := Volume (st_next_id s_pair) (N.succ (st_gen s_pair))
                          (vol_tree v_image)]> (st_volumes s_pair)
    ∧ st_host s' = st_host s_pair
    ∧ st_next_id s' = N.succ (st_next_id s_pair).
Proof.
  apply (commit_succeeds_on_two_volumes failing_process "img_42002" "ps_42002" []
           v_image v_container s_pair);
    try (vm_compute; reflexivity); discriminate.
Defined.

(** X3 on the sample store: the container committed to itself. *)
Lemma commit_to_itself_destroys_witness :
  commit failing_process ["ps_42002"; "ps_42002"] s_pair
  = (1, set_volumes (delete "ps_42002") s_pair).
Proof.
  apply (commit_to_itself_destroys failing_process "ps_42002" [] v_container s_pair).
  vm_compute; reflexivity.
Defined.

(** X7 on the sample host: [init /empty]. *)
Lemma init_without_entries_leaves_empty_volume_witness :
  init failing_process ["/empty"] [0] s_empty
  = Some (None, 1,
          MkState (<["img_42002" := Volume (st_next_id s_empty) (N.succ (st_gen s_empty)) ∅]>
                     (st_volumes s_empty))
                  (st_host s_empty) (N.succ (st_next_id s_empty))
                  (N.succ (st_gen s_empty))).
Proof.
  apply (init_without_entries_leaves_empty_volume failing_process "/empty" "img_42002"
           [] (HDir ∅) [0] s_empty);
    vm_compute; reflexivity.
Defined.



(** X10 on the sample store: [run img_42002 wget], then the commit. *)
Lemma commit_after_run_carries_the_log_witness :
  ∃ uuid vc out s2 v2,
    first_free "ps_" [0] s_image = Some uuid
    ∧ st_volumes s_pair !! uuid = Some vc
    ∧ commit failing_process [uuid; "img_42002"] s_pair = (0, s2)
    ∧ st_volumes s2 !! "img_42002" = Some v2
    ∧ vol_tree v2 = vol_tree vc
    ∧ vol_tree v2 !! (uuid +:+ ".log") = Some (EFile out)
    ∧ st_volumes s2 !! uuid = Some vc.
Proof.
  apply (commit_after_run_carries_the_log failing_process "img_42002" "wget" [] [0]
           (default (Volume 0 0 ∅) (st_volumes s_image !! "img_42002")) s_image s_pair);
    try (vm_compute; reflexivity); discriminate.
Defined.

(** X11 on the sample store. *)
Lemma container_outlives_its_image_witness :
  ∃ uuid vc s2,
    first_free "ps_" [0] s_image = Some uuid
    ∧ st_volumes s_pair !! uuid = Some vc
    ∧ rm failing_process ["img_42002"] s_pair = (0, s2)
    ∧ st_volumes s2 !! "img_42002" = None
    ∧ st_volumes s2 !! uuid = Some vc.
Proof.
  apply (container_outlives_its_image failing_process "img_42002" "wget" [] [0]
           (default (Volume 0 0 ∅) (st_volumes s_image !! "img_42002")) s_image s_pair);
    vm_compute; reflexivity.
Defined.

(** X12 on the sample host: [init /base], then [rm] of the new image. *)
Lemma rm_undoes_init_witness :
  ∃ s2, rm failing_process ["img_42002"] s_image = (0, s2)
    ∧ st_volumes s2 = st_volumes s_empty
    ∧ st_host s2 = st_host s_empty.
Proof.
  apply (rm_undoes_init failing_process "/base" "img_42002" [] [0] 0 s_empty s_image).
  vm_compute; reflexivity.
Defined.

(** X13 on a store in which [img_42002] to [img_42254] all exist. *)
Lemma full_namespace_never_issues_witness :
  init failing_process ["/base"] [3; 1000; -7; 42254] s_full = None.
Proof.
  apply (proj1 (full_namespace_never_issues failing_process "/base" "" "" [] []
                  [3; 1000; -7; 42254] s_full));
    vm_compute; reflexivity.
Defined.

(** ** What the isolated process is started on *)

Section Launch.

Variable isolate : gmap string entry → string → gmap string entry * string * Z.


End Launch.


(** ** The profiling script *)

(** X19. Whenever [analyze_user_behavior] returns, the profile carries
    the user name it was asked about and at most five repository names;
    and when the first answer is not a 200, the profile is the empty one
    whatever else the network would have answered. *)
Theorem analyze_user_behavior_shape (get : string → option Intel.response)
    (username : string) :
  match Intel.analyze_user_behavior get username with
  | None => True
  | Some intel =>
      Intel.username intel = username
      ∧ (length (Intel.repo_names intel) ≤ 5)%nat
      ∧ ∀ r, get (Intel.user_url username) = Some r → Intel.status_code r ≠ 200 →
             intel = Intel.MkUserIntel username Intel.JNull Intel.JNull Intel.JNull []
  end.
Proof.
  unfold Intel.analyze_user_behavior.
  destruct (get (Intel.user_url username)) as [[status1 body1]|]; cbn; [|done].
  destruct (status1 =? 200) eqn:Hstatus; cbn.
  2:{ split; [done|]. split; [lia|]. by intros r [= <-]. }
  apply Z.eqb_eq in Hstatus as ->.
  destruct body1 as [user_data|]; cbn; [|done].
  destruct (Intel.dict_get user_data "name") as [name|]; cbn; [|done].
  destruct (Intel.dict_get user_data "location") as [location|]; cbn; [|done].
  destruct (Intel.dict_get user_data "email") as [email|]; cbn; [|done].
  destruct (get (Intel.repos_url username)) as [[status2 body2]|]; cbn; [|done].
  destruct (status2 =? 200); cbn.
  - destruct body2 as [repos_data|]; cbn; [|done].
    destruct (Intel.first_five repos_data) as [repos|] eqn:Hfive; cbn; [|done].
    destruct (mapM (λ repo, Intel.subscript repo "name") repos) as [names|] eqn:Hnames;
      cbn; [|done].
    split; [done|]. split; [|by intros r [= <-]].
    apply length_mapM in Hnames. rewrite <- Hnames.
    destruct repos_data; try discriminate Hfive; injection Hfive as <-;
      rewrite length_take; lia.
  - split; [done|]. split; [cbn; lia|]. by intros r [= <-].
Qed.

(** X20. Only the first five repositories of the answer are read: two
    networks that answer alike about the user and whose repository lists
    agree on their first five items give the same result, whatever
    follows in the lists. *)
Theorem analyze_user_behavior_reads_five_repos
    (get1 get2 : string → option Intel.response) (username : string)
    (items1 items2 : list Intel.json) :
  get1 (Intel.user_url username) = get2 (Intel.user_url username) →
  get1 (Intel.repos_url username) = Some (Intel.Response 200 (Some (Intel.JArr items1))) →
  get2 (Intel.repos_url username) = Some (Intel.Response 200 (Some (Intel.JArr items2))) →
  take 5 items1 = take 5 items2 →
  Intel.analyze_user_behavior get1 username = Intel.analyze_user_behavior get2 username.
Proof.
  intros Huser Hrepos1 Hrepos2 Hfive. unfold Intel.analyze_user_behavior.
  rewrite Huser, Hrepos1, Hrepos2. cbn. by rewrite Hfive.
Qed.

(** X21. On well-formed answers (a 200 with a JSON object about the user,
    a 200 with a JSON array whose first five items are objects with a
    [name]) the profile holds the user's [name], [location] and [email]
    fields, [None] for a missing one, and the names of the first five
    repositories in the order of the answer. *)
Theorem analyze_user_behavior_profile (get : string → option Intel.response)
    (username : string) (fields : gmap string Intel.json)
    (items names : list Intel.json) :
  get (Intel.user_url username)
  = Some (Intel.Response 200 (Some (Intel.JObj fields))) →
  get (Intel.repos_url username)
  = Some (Intel.Response 200 (Some (Intel.JArr items))) →
  Forall2 (λ repo n, ∃ m, repo = Intel.JObj m ∧ m !! "name" = Some n)
          (take 5 items) names →
  Intel.analyze_user_behavior get username
  = Some (Intel.MkUserIntel username
            (default Intel.JNull (fields !! "name"))
            (default Intel.JNull (fields !! "location"))
            (default Intel.JNull (fields !! "email"))
            names).
Proof.
  intros Huser Hrepos Hnames. unfold Intel.analyze_user_behavior.
  rewrite Huser, Hrepos. cbn.
  assert (mapM (λ repo, Intel.subscript repo "name") (take 5 items) = Some names) as ->.
  { apply mapM_Some. eapply Forall2_impl; [done|].
    by intros repo n (m & -> & Hm). }
  done.
Qed.

(** X20 on the sample network: a sixth item, even a malformed one, makes
    no difference. *)
Lemma analyze_user_behavior_reads_five_repos_witness :
  Intel.analyze_user_behavior
    (Intel.sample_get (Intel.five_repos ++ [Intel.repo "f"])) "octocat"
  = Intel.analyze_user_behavior
      (Intel.sample_get (Intel.five_repos ++ [Intel.JNull])) "octocat".
Proof.
  apply (analyze_user_behavior_reads_five_repos
           (Intel.sample_get (Intel.five_repos ++ [Intel.repo "f"]))
           (Intel.sample_get (Intel.five_repos ++ [Intel.JNull]))
           "octocat"
           (Intel.five_repos ++ [Intel.repo "f"])
           (Intel.five_repos ++ [Intel.JNull]));
    reflexivity.
Defined.

(** X21 on the sample network. *)
Lemma analyze_user_behavior_profile_witness :
  Intel.analyze_user_behavior
    (Intel.sample_get (Intel.five_repos ++ [Intel.repo "f"])) "octocat"
  = Some (Intel.MkUserIntel "octocat"
            (Intel.JStr "The Octocat") (Intel.JStr "San Francisco") Intel.JNull
            [Intel.JStr "a"; Intel.JStr "b"; Intel.JStr "c"; Intel.JStr "d";
             Intel.JStr "e"]).
Proof.
  rewrite (analyze_user_behavior_profile
             (Intel.sample_get (Intel.five_repos ++ [Intel.repo "f"])) "octocat"
             {[ "name" := Intel.JStr "The Octocat";
                "location" := Intel.JStr "San Francisco";
                "email" := Intel.JNull ]}
             (Intel.five_repos ++ [Intel.repo "f"])
             [Intel.JStr "a"; Intel.JStr "b"; Intel.JStr "c"; Intel.JStr "d";
              Intel.JStr "e"]);
    [vm_compute; reflexivity | reflexivity | reflexivity |].
  repeat constructor; eexists; (split; [reflexivity | vm_compute; reflexivity]).
Defined.
